(** * The TACRED data loader (data/loader.py), embedded and verified

    The batching and preprocessing pipeline of the relation-extraction
    trainer: span anonymisation, positions relative to the subject and
    object spans with logarithmic compression, chunking into batches,
    sorting by length, padding and word dropout.

    Python integers are [Z]; Python lists are [list]; a dict that is only
    read is a [gmap]; the token lists of the caller's records live in a
    store, because [preprocess] writes into them. *)

From Stdlib Require Import ZArith QArith Lia.
From stdpp Require Import base tactics option list list_numbers sorting
  strings pretty gmap.

Local Open Scope Z_scope.

(** ** Python built-ins used by the loader *)

Module Py.

(** [range(a, b)]: the integers [a], [a+1], ..., [b-1]. *)
Definition range (a b : Z) : list Z := seqZ a (b - a).

(** [range(start, stop, step)] for a positive step, by iteration: emit
    [i] and advance by [step] while [i < stop].  [fuel] bounds the number
    of iterations; [stop - start] is enough since each one advances by at
    least one. *)
Fixpoint range_up (fuel : nat) (i stop step : Z) : list Z :=
  match fuel with
  | O => []
  | S fuel' =>
      if i <? stop then i :: range_up fuel' (i + step) stop step else []
  end.

(** The same for a negative step: emit [i] and advance while [i > stop]. *)
Fixpoint range_down (fuel : nat) (i stop step : Z) : list Z :=
  match fuel with
  | O => []
  | S fuel' =>
      if stop <? i then i :: range_down fuel' (i + step) stop step else []
  end.

(** [range(start, stop, step)]; a zero step raises [ValueError]. *)
Definition range_step (start stop step : Z) : option (list Z) :=
  if step =? 0 then None
  else if 0 <? step
       then Some (range_up (Z.to_nat (stop - start)) start stop step)
       else Some (range_down (Z.to_nat (start - stop)) start stop step).

(** [[x] * n]: [n] copies, none when [n <= 0]. *)
Definition repeat {A} (x : A) (n : Z) : list A := replicate (Z.to_nat n) x.

(** A slice bound [i] of a list of length [n]: negative bounds count from
    the end, and the result is clamped to [0..n]. *)
Definition clamp (n i : Z) : Z :=
  if i <? 0 then Z.max 0 (i + n) else Z.min i n.

Section slices.
Context {A : Type}.

(** [l[i:j]] *)
Definition slice (l : list A) (i j : Z) : list A :=
  let n := Z.of_nat (length l) in
  let lo := clamp n i in
  let hi := Z.max lo (clamp n j) in
  take (Z.to_nat (hi - lo)) (drop (Z.to_nat lo) l).

(** [l[i:]] *)
Definition slice_from (l : list A) (i : Z) : list A :=
  drop (Z.to_nat (clamp (Z.of_nat (length l)) i)) l.

(** [l[i:j] = v]: the slice is cut out and [v] put in its place,
    whatever the length of [v]. *)
Definition slice_assign (l : list A) (i j : Z) (v : list A) : list A :=
  let n := Z.of_nat (length l) in
  let lo := clamp n i in
  let hi := Z.max lo (clamp n j) in
  take (Z.to_nat lo) l ++ v ++ drop (Z.to_nat hi) l.
End slices.

(** [len(l)] *)
Definition len {A} (l : list A) : Z := Z.of_nat (length l).

End Py.

(** ** Positions relative to a span *)

(** [get_positions(start_idx, end_idx, length)] *)
Definition get_positions (start_idx end_idx length : Z) : list Z :=
  Py.range (- start_idx) 0
    ++ Py.repeat 0 (end_idx - start_idx + 1)
    ++ Py.range 1 (length - end_idx).

(** [math.ceil(math.log(n, 2))] for an integer [n] with [1 <= n < 2^29].
    On that range the double-precision quotient [log(n)/log(2)] rounds to
    the ceiling of the exact logarithm, which is what is written here; from
    [2^29] on it does not always (at [2^29] itself the quotient is
    29.000000000000004 and the code gets 30), so every property below that
    states a value of this function is stated for arguments below [2^29].
    Whether the value is zero is exact for every [n]. *)
Definition ceil_log2 (n : Z) : Z := Z.log2_up n.

(** The loop of [relativate_word_positions], "reverse positives":
    [remaining] is what [enumerate(new_list)] has still to yield, [index]
    the index of its head, [new_list_final] the list built so far. *)
Fixpoint reverse_positives (new_list : list Z) (index : nat)
    (remaining new_list_final : list Z) : list Z :=
  match remaining with
  | [] => new_list_final
  | element :: remaining' =>
      if element =? 0
      then new_list_final ++ Py.slice_from new_list (Z.of_nat index)
      else reverse_positives new_list (S index) remaining'
             (new_list_final ++ [- element])
  end.

Definition positional_error : string := "Error in positional embeddings!".

(** [relativate_word_positions(positions_list)]: the new positions and the
    lines printed. *)
Definition relativate_word_positions (positions_list : list Z)
    : list Z * list string :=
  let new_list := (λ x, ceil_log2 (Z.abs x + 1)) <$> positions_list in
  let new_list_final := reverse_positives new_list 0 new_list [] in
  let printed :=
    if bool_decide (Py.len positions_list ≠ Py.len new_list_final)
    then [positional_error] else [] in
  (new_list_final, printed).

(** ** Exceptions *)

Inductive exn : Set :=
  TypeError | IndexError | KeyError | ValueError | AssertionError
  | RuntimeError.

(** The outcome of a call that may raise. *)
Inductive result (A : Type) : Type :=
| Ok (a : A)
| Raise (e : exn).
Arguments Ok {A} a.
Arguments Raise {A} e.

Global Instance result_ret : MRet result := λ A a, Ok a.
Global Instance result_bind : MBind result := λ A B f m,
  match m with Ok a => f a | Raise e => Raise e end.

(** An [option] read as a call that raises [e] on [None]. *)
Definition or_raise {A} (e : exn) (o : option A) : result A :=
  match o with Some a => Ok a | None => Raise e end.

(** ** Data model *)

(** A JSON record of the data file.  Its ['token'] list is a mutable
    Python object; the record holds a reference to it. *)
Definition loc := nat.

Record Datum : Type := mkDatum {
  token : loc;
  subj_start : Z; subj_end : Z;
  obj_start : Z; obj_end : Z;
  subj_type : string; obj_type : string;
  stanford_pos : list string;
  stanford_ner : list string;
  stanford_deprel : list string;
  relation : string
}.

(** The token lists the caller's records point to. *)
Abbreviation store := (gmap loc (list string)).

(** The local variable [tokens] of [preprocess]: the record's own list
    (after [tokens = d['token']]) or a list built by the loop body. *)
Inductive tokens_var : Type :=
| Alias (l : loc)
| Fresh (v : list string).

Definition read_tokens (σ : store) (t : tokens_var) : list string :=
  match t with Alias l => σ !!! l | Fresh v => v end.

(** [tokens[i:j] = v]: written into the store when [tokens] is the
    record's list. *)
Definition assign_tokens (σ : store) (t : tokens_var) (i j : Z)
    (v : list string) : store * tokens_var :=
  match t with
  | Alias l => (<[l := Py.slice_assign (σ !!! l) i j v]> σ, Alias l)
  | Fresh w => (σ, Fresh (Py.slice_assign w i j v))
  end.

(** One preprocessed example, the 8-tuple
    [(tokens, pos, ner, deprel, subj_positions, obj_positions,
      inst_position, relation)]. *)
Record Example : Type := mkExample {
  ex_tokens : list Z;
  ex_pos : list Z;
  ex_ner : list Z;
  ex_deprel : list Z;
  ex_subj_positions : list Z;
  ex_obj_positions : list Z;
  ex_inst_position : list Z;
  ex_relation : Z
}.

(** The options read by the loader: [opt['lower']] and
    [opt['word_dropout']]. *)
Record Opt : Type := mkOpt {
  lower : bool;
  opt_word_dropout : Q
}.

(** [PAD = 0], the module constant of loader.py. *)
Definition PAD : Z := 0.

(** ** Sample data

    A small data file, vocabularies and generator on which the loader can
    be run. *)

Module Sample.

Definition PAD_ID : Z := 0.
Definition UNK_ID : Z := 1.

Definition word2id : gmap string Z :=
  list_to_map [("SUBJ-PERSON", 2); ("OBJ-CITY", 3); ("lives", 4); ("in", 5);
               ("moved", 6); ("to", 7)].
Definition POS_TO_ID : gmap string Z :=
  list_to_map [("NNP", 2); ("VBZ", 3); ("IN", 4); ("VBD", 5)].
Definition NER_TO_ID : gmap string Z :=
  list_to_map [("O", 2); ("PERSON", 3); ("CITY", 4)].
Definition DEPREL_TO_ID : gmap string Z :=
  list_to_map [("nsubj", 2); ("ROOT", 3); ("case", 4); ("nmod", 5)].
Definition LABEL_TO_ID : gmap string Z :=
  list_to_map [("no_relation", 0); ("per:cities_of_residence", 1)].

(** Lowercasing of the letters A to Z. *)
Fixpoint str_lower (s : string) : string :=
  match s with
  | EmptyString => EmptyString
  | String c s' =>
      let n := Ascii.nat_of_ascii c in
      String (if ((65 <=? n) && (n <=? 90))%nat
              then Ascii.ascii_of_nat (n + 32) else c)
        (str_lower s')
  end.

(** A generator that counts its draws and always yields one half. *)
Definition random (g : nat) : Q * nat := ((1 # 2)%Q, S g).

(** A shuffle that reverses the list. *)
Definition shuffle (l : list Z) : list Z := reverse l.

Definition d0 : Datum :=
  mkDatum 0%nat 0 0 3 3 "PERSON" "CITY"
    ["NNP"; "VBZ"; "IN"; "NNP"] ["PERSON"; "O"; "O"; "CITY"]
    ["nsubj"; "ROOT"; "case"; "nmod"] "per:cities_of_residence".
Definition d1 : Datum :=
  mkDatum 1%nat 0 1 4 4 "PERSON" "CITY"
    ["NNP"; "NNP"; "VBD"; "IN"; "NNP"] ["PERSON"; "PERSON"; "O"; "O"; "CITY"]
    ["nsubj"; "nsubj"; "ROOT"; "case"; "nmod"] "no_relation".
Definition d2 : Datum :=
  mkDatum 2%nat 2 2 0 0 "PERSON" "CITY"
    ["NNP"; "VBZ"; "NNP"] ["CITY"; "O"; "PERSON"]
    ["nmod"; "ROOT"; "nsubj"] "no_relation".

Definition json_data : list Datum := [d0; d1; d2].

Definition σ0 : gmap loc (list string) :=
  list_to_map [(0%nat, ["Ann"; "lives"; "in"; "Oslo"]);
               (1%nat, ["Bob"; "Ray"; "moved"; "to"; "Rome"]);
               (2%nat, ["Rome"; "Hosts"; "Bob"])].

(** A record whose subject span 0..1 and object span 1..2 share index 1. *)
Definition d_overlap : Datum :=
  mkDatum 0%nat 0 1 1 2 "PERSON" "CITY" [] [] [] "no_relation".

Definition σ_overlap : gmap loc (list string) :=
  list_to_map [(0%nat, ["a"; "b"; "c"])].

Definition e0 : Example :=
  mkExample [2; 4; 5; 3] [2; 3; 4; 2] [3; 2; 2; 4] [2; 3; 4; 5]
    [0; 1; 2; 2] [-2; -2; -1; 0] [1; 2; 3; 4] 1.
Definition e1 : Example :=
  mkExample [2; 2; 6; 7; 3] [2; 2; 5; 4; 2] [3; 3; 2; 2; 4] [2; 2; 3; 4; 5]
    [0; 0; 1; 2; 2] [-3; -2; -2; -1; 0] [1; 2; 3; 4; 5] 0.
Definition e2 : Example :=
  mkExample [3; 1; 2] [2; 3; 2] [4; 2; 3] [5; 3; 2]
    [-2; -1; 0] [0; 1; 2] [1; 2; 3] 0.

Definition MAX_LEN : Z := 100.


End Sample.

(** ** The loader *)

Section Loader.

(** [utils.constant]: the padding and unknown-word ids and the tag and
    label vocabularies. *)
Variables PAD_ID UNK_ID : Z.
Variables POS_TO_ID NER_TO_ID DEPREL_TO_ID LABEL_TO_ID : gmap string Z.

(** [str.lower] *)
Variable str_lower : string → string.

(** The state of [numpy.random] and one draw of [np.random.random()],
    a number in the half-open interval from 0 to 1. *)
Variable rng : Type.
Variable random : rng → Q * rng.
Hypothesis random_range : ∀ g, (0 <= (random g).1)%Q ∧ ((random g).1 < 1)%Q.

(** [random.shuffle] applied to a list of indices: some rearrangement. *)
Variable shuffle : list Z → list Z.
Hypothesis shuffle_perm : ∀ l, shuffle l ≡ₚ l.

(** [map_to_ids(tokens, vocab)] *)
Definition map_to_ids (tokens : list string) (vocab : gmap string Z)
    : list Z :=
  (λ t, match vocab !! t with Some i => i | None => UNK_ID end) <$> tokens.

(** *** preprocess *)

(** Lines 57-72 of [preprocess] for one record [d]: lowercasing and the
    two slice assignments that anonymise the subject and object spans.
    Returns the store and the variable [tokens] as they are afterwards. *)
Definition anonymize (opt : Opt) (d : Datum) (σ : store)
    : store * tokens_var :=
  let tokens := Alias (token d) in
  let tokens :=
    if lower opt then Fresh (str_lower <$> read_tokens σ tokens)
    else tokens in
  let ss := subj_start d in let se := subj_end d in
  let os := obj_start d in let oe := obj_end d in
  let '(σ, tokens) :=
    assign_tokens σ tokens ss (se + 1)
      (Py.repeat ("SUBJ-" +:+ subj_type d) (se - ss + 1)) in
  assign_tokens σ tokens os (oe + 1)
    (Py.repeat ("OBJ-" +:+ obj_type d) (oe - os + 1)).

(** [[pos_i + 1 if w_i != PAD else 0 for pos_i, w_i in enumerate(tokens)]] *)
Definition inst_position_of (tokens : list Z) : list Z :=
  imap (λ pos_i w_i,
          if bool_decide (w_i ≠ PAD) then Z.of_nat pos_i + 1 else 0) tokens.

(** The body of the loop of [preprocess] for one record: the store
    afterwards, the lines printed, and the tuple appended to [processed],
    or [KeyError] for a relation that has no label id. *)
Definition preprocess_record (vocab_word2id : gmap string Z) (opt : Opt)
    (d : Datum) (σ : store) : store * list string * result Example :=
  let '(σ, tokens) := anonymize opt d σ in
  let tokens := map_to_ids (read_tokens σ tokens) vocab_word2id in
  let pos := map_to_ids (stanford_pos d) POS_TO_ID in
  let ner := map_to_ids (stanford_ner d) NER_TO_ID in
  let deprel := map_to_ids (stanford_deprel d) DEPREL_TO_ID in
  let l := Py.len tokens in
  let inst_position := inst_position_of tokens in
  let '(subj_positions, out1) :=
    relativate_word_positions (get_positions (subj_start d) (subj_end d) l) in
  let '(obj_positions, out2) :=
    relativate_word_positions (get_positions (obj_start d) (obj_end d) l) in
  (σ, out1 ++ out2,
   relation ← or_raise KeyError (LABEL_TO_ID !! relation d);
   Ok (mkExample tokens pos ner deprel subj_positions obj_positions
         inst_position relation)).

(** [preprocess(data, vocab, opt)]: the loop over the records, with
    [processed] the list built so far.  An exception stops it; the store
    keeps what was written before. *)
Fixpoint preprocess_loop (vocab_word2id : gmap string Z) (opt : Opt)
    (data : list Datum) (σ : store) (printed : list string)
    (processed : list Example)
    : store * list string * result (list Example) :=
  match data with
  | [] => (σ, printed, Ok processed)
  | d :: data' =>
      match preprocess_record vocab_word2id opt d σ with
      | (σ', out, Ok ex) =>
          preprocess_loop vocab_word2id opt data' σ' (printed ++ out)
            (processed ++ [ex])
      | (σ', out, Raise e) => (σ', printed ++ out, Raise e)
      end
  end.

Definition preprocess (data : list Datum) (vocab_word2id : gmap string Z)
    (opt : Opt) (σ : store) : store * list string * result (list Example) :=
  preprocess_loop vocab_word2id opt data σ [] [].

(** *** Batches *)

(** [list(zip( *batch))]: the eight columns of a batch of examples. *)
Record Fields : Type := mkFields {
  f_tokens : list (list Z);
  f_pos : list (list Z);
  f_ner : list (list Z);
  f_deprel : list (list Z);
  f_subj_positions : list (list Z);
  f_obj_positions : list (list Z);
  f_inst_position : list (list Z);
  f_relation : list Z
}.

Definition columns (rows : list Example) : Fields :=
  mkFields (ex_tokens <$> rows) (ex_pos <$> rows) (ex_ner <$> rows)
    (ex_deprel <$> rows) (ex_subj_positions <$> rows)
    (ex_obj_positions <$> rows) (ex_inst_position <$> rows)
    (ex_relation <$> rows).

(** [zip( *batch)] of a list of 8-tuples: eight columns, or nothing at all
    for an empty list, which the [assert len(batch) == 8] rejects. *)
Definition transpose (batch : list Example) : result Fields :=
  match batch with
  | [] => Raise AssertionError
  | _ => Ok (columns batch)
  end.

(** [zip] of the eight columns, back into rows; as long as the shortest. *)
Definition zip_fields (b : Fields) : list Example :=
  zip_with (λ '(t, p, n, d) '(s, o, i, r), mkExample t p n d s o i r)
    (zip (zip (zip (f_tokens b) (f_pos b)) (f_ner b)) (f_deprel b))
    (zip (zip (zip (f_subj_positions b) (f_obj_positions b))
            (f_inst_position b)) (f_relation b)).

(** A row of [zip( *unsorted_all)] in [sort_all]: the length, the original
    index and the eight fields. *)
Record Row : Type := mkRow {
  row_len : Z;
  row_idx : Z;
  row_fields : Example
}.

(** Python's [<] on lists of integers. *)
Fixpoint list_lt (l1 l2 : list Z) : bool :=
  match l1, l2 with
  | [], [] => false
  | [], _ :: _ => true
  | _ :: _, [] => false
  | x :: l1', y :: l2' =>
      if bool_decide (x ≠ y) then x <? y else list_lt l1' l2'
  end.

(** Python's [<] on tuples: the first components that differ decide. *)
Definition example_lt (a b : Example) : bool :=
  if bool_decide (ex_tokens a ≠ ex_tokens b)
  then list_lt (ex_tokens a) (ex_tokens b)
  else if bool_decide (ex_pos a ≠ ex_pos b)
  then list_lt (ex_pos a) (ex_pos b)
  else if bool_decide (ex_ner a ≠ ex_ner b)
  then list_lt (ex_ner a) (ex_ner b)
  else if bool_decide (ex_deprel a ≠ ex_deprel b)
  then list_lt (ex_deprel a) (ex_deprel b)
  else if bool_decide (ex_subj_positions a ≠ ex_subj_positions b)
  then list_lt (ex_subj_positions a) (ex_subj_positions b)
  else if bool_decide (ex_obj_positions a ≠ ex_obj_positions b)
  then list_lt (ex_obj_positions a) (ex_obj_positions b)
  else if bool_decide (ex_inst_position a ≠ ex_inst_position b)
  then list_lt (ex_inst_position a) (ex_inst_position b)
  else ex_relation a <? ex_relation b.

Definition row_lt (a b : Row) : bool :=
  if bool_decide (row_len a ≠ row_len b) then row_len a <? row_len b
  else if bool_decide (row_idx a ≠ row_idx b) then row_idx a <? row_idx b
  else example_lt (row_fields a) (row_fields b).

(** [sorted]: a stable sort that only asks [<].  It is written as an
    insertion sort; on the lists sorted here no two elements compare
    equal, so every sorting algorithm returns the same list.  With
    [reverse=True] the order is descending and equal elements still keep
    their original order. *)
Fixpoint sorted_insert {A} (lt : A → A → bool) (x : A) (l : list A)
    : list A :=
  match l with
  | [] => [x]
  | y :: l' => if lt y x then y :: sorted_insert lt x l' else x :: y :: l'
  end.

Definition sorted_asc {A} (lt : A → A → bool) (l : list A) : list A :=
  foldr (sorted_insert lt) [] l.

Definition sorted {A} (lt : A → A → bool) (reverse_ : bool) (l : list A)
    : list A :=
  if reverse_ then reverse (sorted_asc lt (reverse l)) else sorted_asc lt l.

(** [sort_all(batch, lens)]: the sorted columns and the original indices.
    With no rows [sorted_all] is empty and [sorted_all[1]] raises. *)
Definition sort_all (batch : Fields) (lens : list Z)
    : result (Fields * list Z) :=
  let unsorted_all :=
    zip_with (λ '(n, i) e, mkRow n i e)
      (zip lens (Py.range 0 (Py.len lens))) (zip_fields batch) in
  let sorted_rows := sorted row_lt true unsorted_all in
  match sorted_rows with
  | [] => Raise IndexError
  | _ => Ok (columns (row_fields <$> sorted_rows), row_idx <$> sorted_rows)
  end.

(** [word_dropout(tokens, dropout)], threading the generator: a number is
    drawn only for a token that is not [UNK_ID]. *)
Fixpoint word_dropout (tokens : list Z) (dropout : Q) (g : rng)
    : list Z * rng :=
  match tokens with
  | [] => ([], g)
  | x :: tokens' =>
      if bool_decide (x ≠ UNK_ID) then
        let '(r, g) := random g in
        let y := if Qlt_le_dec r dropout then UNK_ID else x in
        let '(ys, g) := word_dropout tokens' dropout g in
        (y :: ys, g)
      else
        let '(ys, g) := word_dropout tokens' dropout g in
        (x :: ys, g)
  end.

(** [[word_dropout(sent, p) for sent in sents]] *)
Fixpoint word_dropout_all (sents : list (list Z)) (dropout : Q) (g : rng)
    : list (list Z) * rng :=
  match sents with
  | [] => ([], g)
  | sent :: sents' =>
      let '(w, g) := word_dropout sent dropout g in
      let '(ws, g) := word_dropout_all sents' dropout g in
      (w :: ws, g)
  end.

(** [max] of a generator; [ValueError] when it yields nothing. *)
Definition py_max (l : list Z) : result Z :=
  match l with
  | [] => Raise ValueError
  | x :: l' => Ok (foldl Z.max x l')
  end.

(** The cells of a [torch.LongTensor] are signed 64-bit integers. *)
Definition int64_min : Z := -9223372036854775808.
Definition int64_max : Z := 9223372036854775807.

Definition fits_int64 (x : Z) : Prop := int64_min ≤ x ≤ int64_max.

Global Instance fits_int64_dec (x : Z) : Decision (fits_int64 x).
Proof. unfold fits_int64. apply _. Defined.

(** [torch.LongTensor(s)] of a list of Python ints; a value that does not
    fit in 64 bits is refused ("Overflow when unpacking long"). *)
Definition long_tensor (s : list Z) : result (list Z) :=
  if decide (Forall fits_int64 s) then Ok s else Raise RuntimeError.

(** The loop of [get_long_tensor]: [tokens[i, :len(s)] = torch.LongTensor(s)]
    for each sequence.  The right-hand side is built first, then the row is
    looked up; a row index beyond the tensor raises. *)
Fixpoint fill_rows (i : nat) (tokens_list tokens : list (list Z))
    : result (list (list Z)) :=
  match tokens_list with
  | [] => Ok tokens
  | s :: tokens_list' =>
      s ← long_tensor s;
      row ← or_raise IndexError (tokens !! i);
      fill_rows (S i) tokens_list' (<[i := s ++ drop (length s) row]> tokens)
  end.

(** [get_long_tensor(tokens_list, batch_size)]; the tensor is the list of
    its rows.  [token_len] is the longest length, so every sequence fits
    in a row.  [torch.LongTensor(batch_size, token_len)] refuses a negative
    size, and [fill_] a value that is not a 64-bit integer. *)
Definition get_long_tensor (tokens_list : list (list Z)) (batch_size : Z)
    : result (list (list Z)) :=
  token_len ← py_max (Py.len <$> tokens_list);
  if batch_size <? 0 then Raise RuntimeError
  else if decide (fits_int64 PAD_ID)
  then fill_rows 0 tokens_list
         (Py.repeat (Py.repeat PAD_ID token_len) batch_size)
  else Raise RuntimeError.

(** *** The DataLoader object *)

(** The attributes of a [DataLoader] that batching reads; [self.labels]
    and [self.vocab] play no part in it. *)
Record DataLoader : Type := mkDataLoader {
  batch_size : Z;
  opt : Opt;
  eval : bool;
  num_examples : Z;
  data : list (list Example)
}.

(** [l[i]] *)
Definition py_index {A} (l : list A) (i : Z) : result A :=
  let i := if i <? 0 then i + Py.len l else i in
  if i <? 0 then Raise IndexError
  else or_raise IndexError (l !! Z.to_nat i).

(** [[data[i] for i in indices]] *)
Fixpoint select {A} (data : list A) (indices : list Z) : result (list A) :=
  match indices with
  | [] => Ok []
  | i :: indices' =>
      x ← py_index data i;
      xs ← select data indices';
      Ok (x :: xs)
  end.

(** [[data[i:i+batch_size] for i in range(0, len(data), batch_size)]] *)
Definition chunk {A} (data : list A) (batch_size : Z)
    : result (list (list A)) :=
  match Py.range_step 0 (Py.len data) batch_size with
  | None => Raise ValueError
  | Some starts => Ok ((λ i, Py.slice data i (i + batch_size)) <$> starts)
  end.

(** The line [__init__] prints at its end. *)
Definition batches_created (n : Z) (filename : string) : string :=
  pretty n +:+ " batches created for " +:+ filename.

(** [DataLoader.__init__], from the records [json.load] returned for
    [filename]: the store and the lines printed, and the loader. *)
Definition init (filename : string) (json_data : list Datum)
    (batch_size : Z) (opt : Opt) (vocab_word2id : gmap string Z)
    (evaluation : bool) (σ : store)
    : store * list string * result DataLoader :=
  let '(σ, printed, r) := preprocess json_data vocab_word2id opt σ in
  match
    data ← r;
    data ← (if evaluation then Ok data
            else select data (shuffle (Py.range 0 (Py.len data))));
    batches ← chunk data batch_size;
    Ok (mkDataLoader batch_size opt evaluation (Py.len data) batches)
  with
  | Ok self =>
      (σ, printed ++ [batches_created (Py.len (data self)) filename], Ok self)
  | Raise e => (σ, printed, Raise e)
  end.

(** [DataLoader.__len__] *)
Definition len_ (self : DataLoader) : Z := Py.len (data self).

(** A value given as [key]: an [int], a [bool] (a subclass of [int], worth
    0 or 1) or an object of any other type. *)
Inductive Key : Type :=
| KInt (k : Z)
| KBool (b : bool)
| KOther.

Definition key_int (key : Key) : option Z :=
  match key with
  | KInt k => Some k
  | KBool b => Some (if b then 1 else 0)
  | KOther => None
  end.

(** The 10-tuple [__getitem__] returns. *)
Record Batch : Type := mkBatch {
  b_words : list (list Z);
  b_masks : list (list bool);
  b_pos : list (list Z);
  b_ner : list (list Z);
  b_deprel : list (list Z);
  b_subj_positions : list (list Z);
  b_obj_positions : list (list Z);
  b_src_pos : list (list Z);
  b_rels : list Z;
  b_orig_idx : list Z
}.

(** [torch.eq(words, 0)] *)
Definition tensor_eq (t : list (list Z)) (v : Z) : list (list bool) :=
  fmap (M := list) (λ x, bool_decide (x = v)) <$> t.

(** [DataLoader.__getitem__]: the generator afterwards and the batch. *)
Definition getitem (self : DataLoader) (key : Key) (g : rng)
    : rng * result Batch :=
  match key_int key with
  | None => (g, Raise TypeError)
  | Some key =>
      if bool_decide (key < 0 ∨ key >= Py.len (data self))
      then (g, Raise IndexError)
      else
        match py_index (data self) key ≫= (λ batch,
              let batch_size := Py.len batch in
              batch ← transpose batch;
              let lens := Py.len <$> f_tokens batch in
              p ← sort_all batch lens;
              Ok (batch_size, p)) with
        | Raise e => (g, Raise e)
        | Ok (batch_size, (batch, orig_idx)) =>
            let '(words, g) :=
              if eval self then (f_tokens batch, g)
              else word_dropout_all (f_tokens batch)
                     (opt_word_dropout (opt self)) g in
            (g,
             words ← get_long_tensor words batch_size;
             pos ← get_long_tensor (f_pos batch) batch_size;
             ner ← get_long_tensor (f_ner batch) batch_size;
             deprel ← get_long_tensor (f_deprel batch) batch_size;
             subj_positions ←
               get_long_tensor (f_subj_positions batch) batch_size;
             obj_positions ←
               get_long_tensor (f_obj_positions batch) batch_size;
             src_pos ← get_long_tensor (f_inst_position batch) batch_size;
             let masks := tensor_eq words 0 in
             rels ← long_tensor (f_relation batch);
             Ok (mkBatch words masks pos ner deprel subj_positions
                   obj_positions src_pos rels orig_idx))
        end
  end.

(** *** Unsorting in [RelationModel.predict]

    [sorted(zip(orig_idx, predictions, probs))] and the projection that
    drops the indices.  [A] is what the model produced for an example (here
    a prediction and its probabilities), [lt] Python's [<] on it. *)
Definition pair_lt {A} (lt : A → A → bool) (a b : Z * A) : bool :=
  if bool_decide (a.1 ≠ b.1) then a.1 <? b.1 else lt a.2 b.2.

Definition unsort {A} (lt : A → A → bool) (orig_idx : list Z)
    (predictions : list A) : list A :=
  snd <$> sorted (pair_lt lt) false (zip orig_idx predictions).

(** *** bin_positions

    The result of an operation on 64-bit integers: it wraps around. *)
Definition wrap64 (z : Z) : Z := (z - int64_min) mod 2 ^ 64 + int64_min.

(** [a[a>0] = (a[a>0]+(width-1))//width] and then [a[a<0] = a[a<0]//width]
    on the numpy array of the positions, an array of 64-bit integers when
    the positions and [width - 1] are such: each assignment reads the
    array as the one before left it, and sums and quotients wrap.  [/] is
    floor division, as [//] is. *)
Definition bin_positions (positions_list : list Z) (width : Z) : list Z :=
  let a := positions_list in
  let a :=
    (λ x, if 0 <? x then wrap64 (wrap64 (x + (width - 1)) / width) else x)
      <$> a in
  let a := (λ x, if x <? 0 then wrap64 (x / width) else x) <$> a in
  a.

(** *** The label names kept for [gold]

    [constant.LABEL_TO_ID.items()], in the order of the dict. *)
Variable LABEL_ITEMS : list (string * Z).
Hypothesis LABEL_ITEMS_dict : LABEL_ITEMS ≡ₚ map_to_list LABEL_TO_ID.





(** *** __iter__

    [for i in range(self.__len__()): yield self.__getitem__(i)]: the
    generator afterwards, the batches yielded, and the exception that
    ended the iteration, if one did. *)
Fixpoint iter_keys (self : DataLoader) (keys : list Z) (g : rng)
    : rng * list Batch * option exn :=
  match keys with
  | [] => (g, [], None)
  | i :: keys' =>
      match getitem self (KInt i) g with
      | (g, Raise e) => (g, [], Some e)
      | (g, Ok b) =>
          let '(g, bs, e) := iter_keys self keys' g in (g, b :: bs, e)
      end
  end.

Definition iter_ (self : DataLoader) (g : rng)
    : rng * list Batch * option exn :=
  iter_keys self (Py.range 0 (len_ self)) g.

(** *** What the model reads from a batch (model/rnn.py)

    [masks.data.eq(constant.PAD_ID).long().sum(1)] in [forward]: for each
    row of the mask, the number of cells whose value (1 for a set cell, 0
    otherwise) equals [PAD_ID].  The [squeeze()] that follows leaves a
    vector of two or more entries as it is. *)
Definition seq_lens (masks : list (list bool)) : list Z :=
  (λ row, Py.len (filter (λ m : bool, (if m then 1 else 0) = PAD_ID) row))
    <$> masks.

(** [constant.MAX_LEN]; [pe_emb] has [MAX_LEN * 2 + 1] rows, and the row
    looked up for a relative position [p] is [p + MAX_LEN]. *)
Variable MAX_LEN : Z.

Definition pe_rows : Z := MAX_LEN * 2 + 1.

Definition pe_index (p : Z) : Z := p + MAX_LEN.

(** ** Functions used to state the properties *)

(** What the loop computes, by recursion on the list: negate up to the
    first zero and copy from there on. *)
Fixpoint negate_until_zero (l : list Z) : list Z :=
  match l with
  | [] => []
  | x :: l' => if x =? 0 then l else - x :: negate_until_zero l'
  end.

(** A sequence followed by padding ids up to [token_len] cells. *)
Definition pad_to (token_len : Z) (s : list Z) : list Z :=
  s ++ Py.repeat PAD_ID (token_len - Py.len s).

(** The rows [sort_all] sorts: each example with its length and index. *)
Definition rows_of (batch : list Example) : list Row :=
  imap (λ i e, mkRow (Py.len (ex_tokens e)) (Z.of_nat i) e) batch.

(** The strict order on rows by length, then index. *)
Definition row_before (a b : Row) : Prop :=
  row_len a < row_len b ∨ (row_len a = row_len b ∧ row_idx a < row_idx b).

(** The rows of a list of sequences, each padded to the greatest length. *)
Definition pad_rows (l : list (list Z)) : list (list Z) :=
  match py_max (Py.len <$> l) with
  | Ok token_len => pad_to token_len <$> l
  | Raise _ => []
  end.

(** The 10-tuple built from the sorted rows of a batch and the token
    sequences that go into [words]. *)
Definition batch_of (sorted_rows : list Row) (words : list (list Z)) : Batch :=
  let b := columns (row_fields <$> sorted_rows) in
  mkBatch (pad_rows words) (tensor_eq (pad_rows words) 0)
    (pad_rows (f_pos b)) (pad_rows (f_ner b)) (pad_rows (f_deprel b))
    (pad_rows (f_subj_positions b)) (pad_rows (f_obj_positions b))
    (pad_rows (f_inst_position b)) (f_relation b) (row_idx <$> sorted_rows).

(** Index [i] lies in the span from [s] to [e], both included. *)
Definition in_span (s e i : Z) : bool := (s <=? i) && (i <=? e).

(** The token list of a record after the loop body has lowercased and
    anonymised it. *)
Definition anonymized_tokens (o : Opt) (d : Datum) (tokens : list string)
    : list string :=
  let tokens := if lower o then str_lower <$> tokens else tokens in
  let tokens :=
    Py.slice_assign tokens (subj_start d) (subj_end d + 1)
      (Py.repeat ("SUBJ-" +:+ subj_type d) (subj_end d - subj_start d + 1)) in
  Py.slice_assign tokens (obj_start d) (obj_end d + 1)
    (Py.repeat ("OBJ-" +:+ obj_type d) (obj_end d - obj_start d + 1)).

(** Both spans of a record lie within its [n] tokens. *)
Definition spans_valid (d : Datum) (n : Z) : Prop :=
  (0 ≤ subj_start d ≤ subj_end d ∧ subj_end d < n) ∧
  (0 ≤ obj_start d ≤ obj_end d ∧ obj_end d < n).

(** Anonymisation as a reading that gives each span its own token at all
    of its indices: every index of the subject span holds the subject
    token, every index of the object span the object token, every other
    index the original token (lowercased when asked), and the length is
    kept. *)
Definition anonymized_spanwise (o : Opt) (d : Datum) (σ : store) : Prop :=
  let tokens := σ !!! token d in
  let '(σ', t) := anonymize o d σ in
  let out := read_tokens σ' t in
  spans_valid d (Py.len tokens) →
  Py.len out = Py.len tokens ∧
  ∀ (i : nat) (tok : string), tokens !! i = Some tok →
    (in_span (subj_start d) (subj_end d) (Z.of_nat i) = true →
       out !! i = Some ("SUBJ-" +:+ subj_type d)) ∧
    (in_span (obj_start d) (obj_end d) (Z.of_nat i) = true →
       out !! i = Some ("OBJ-" +:+ obj_type d)) ∧
    (in_span (subj_start d) (subj_end d) (Z.of_nat i) = false →
     in_span (obj_start d) (obj_end d) (Z.of_nat i) = false →
       out !! i = Some (if lower o then str_lower tok else tok)).

(** The store after the loop body has run, without lowercasing, on each
    record of [data] in turn. *)
Definition anonymize_all (o : Opt) (data : list Datum) (σ : store) : store :=
  foldl (λ τ d, <[token d := anonymized_tokens o d (τ !!! token d)]> τ)
    σ data.

(** The generator after [k] draws. *)
Definition advance (k : nat) (g : rng) : rng :=
  Nat.iter k (λ g, (random g).2) g.

(** What is said of [get_long_tensor(tokens_list, batch_size)]: it returns
    a matrix of [batch_size] rows of [L] cells, [L] the greatest sequence
    length; row [i] starts with sequence [i] and holds PAD_ID in every
    other cell; sequences of one length come back as they are. *)
Definition padded_matrix (tokens_list : list (list Z)) (batch_size : Z)
    : Prop :=
  ∃ tokens L,
    get_long_tensor tokens_list batch_size = Ok tokens ∧
    Forall (λ s, Py.len s ≤ L) tokens_list ∧
    (∃ s, s ∈ tokens_list ∧ Py.len s = L) ∧
    Py.len tokens = batch_size ∧
    Forall (λ row, Py.len row = L) tokens ∧
    (∀ i s, tokens_list !! i = Some s →
       ∃ row, tokens !! i = Some row ∧
         take (length s) row = s ∧
         Forall (λ cell, cell = PAD_ID) (drop (length s) row)) ∧
    (Forall (λ s, Py.len s = L) tokens_list → tokens = tokens_list).

(** Every number of an example fits in a 64-bit tensor cell. *)
Definition example_fits (e : Example) : Prop :=
  Forall fits_int64 (ex_tokens e) ∧ Forall fits_int64 (ex_pos e) ∧
  Forall fits_int64 (ex_ner e) ∧ Forall fits_int64 (ex_deprel e) ∧
  Forall fits_int64 (ex_subj_positions e) ∧
  Forall fits_int64 (ex_obj_positions e) ∧
  Forall fits_int64 (ex_inst_position e) ∧ fits_int64 (ex_relation e).

Global Instance example_fits_dec (e : Example) : Decision (example_fits e).
Proof. unfold example_fits. apply _. Defined.

(** The padding id fits in a cell, the unknown-word id too when word
    dropout may put it in, and so does every number of the batch. *)
Definition batch_fits (evaluation : bool) (batch : list Example) : Prop :=
  fits_int64 PAD_ID ∧ (evaluation = false → fits_int64 UNK_ID) ∧
  Forall example_fits batch.

Global Instance batch_fits_dec (evaluation : bool) (batch : list Example)
    : Decision (batch_fits evaluation batch).
Proof. unfold batch_fits. apply _. Defined.

(** The per-token fields of an example have the length of its tokens. *)
Definition aligned (e : Example) : Prop :=
  length (ex_subj_positions e) = length (ex_tokens e) ∧
  length (ex_obj_positions e) = length (ex_tokens e) ∧
  length (ex_inst_position e) = length (ex_tokens e).

(** A matrix of [rows] rows of [cols] cells. *)
Definition has_shape {A} (rows cols : Z) (t : list (list A)) : Prop :=
  Py.len t = rows ∧ Forall (λ row, Py.len row = cols) t.

(** * Properties *)

(** ** Python built-ins *)

Lemma len_app {A} (l1 l2 : list A) : Py.len (l1 ++ l2) = Py.len l1 + Py.len l2.
Proof. unfold Py.len. rewrite length_app. lia. Qed.

Lemma len_range a b : Py.len (Py.range a b) = Z.max 0 (b - a).
Proof. unfold Py.len, Py.range. rewrite length_seqZ. lia. Qed.

Lemma len_repeat {A} (x : A) n : Py.len (Py.repeat x n) = Z.max 0 n.
Proof. unfold Py.len, Py.repeat. rewrite length_replicate. lia. Qed.

Lemma len_fmap {A B} (f : A → B) l : Py.len (f <$> l) = Py.len l.
Proof. unfold Py.len. by rewrite length_fmap. Qed.

Lemma clamp_in_range n i : 0 ≤ i ≤ n → Py.clamp n i = i.
Proof. unfold Py.clamp. intros. destruct (Z.ltb_spec i 0); lia. Qed.

Lemma slice_from_app {A} (l1 l2 : list A) :
  Py.slice_from (l1 ++ l2) (Z.of_nat (length l1)) = l2.
Proof.
  unfold Py.slice_from. rewrite clamp_in_range.
  - rewrite Nat2Z.id. by rewrite drop_app_length.
  - rewrite length_app. lia.
Qed.

(** ** get_positions *)

Lemma get_positions_len s e n :
  0 ≤ s ≤ e ∧ e < n → Py.len (get_positions s e n) = n.
Proof.
  intros. unfold get_positions.
  rewrite !len_app, !len_range, len_repeat. lia.
Qed.

Lemma get_positions_lookup s e n (i : Z) :
  0 ≤ s ≤ e ∧ e < n → 0 ≤ i < n →
  get_positions s e n !! Z.to_nat i
  = Some (if i <? s then i - s else if i <=? e then 0 else i - e).
Proof.
  intros Hse Hi. unfold get_positions, Py.range, Py.repeat.
  destruct (Z.ltb_spec i s) as [Hlt|Hge].
  - rewrite lookup_app_l by (rewrite length_seqZ; lia).
    rewrite lookup_seqZ_lt by lia. f_equal. lia.
  - rewrite lookup_app_r by (rewrite length_seqZ; lia).
    rewrite length_seqZ.
    destruct (Z.leb_spec i e) as [Hle|Hgt].
    + rewrite lookup_app_l by (rewrite length_replicate; lia).
      apply lookup_replicate_2. lia.
    + rewrite lookup_app_r by (rewrite length_replicate; lia).
      rewrite length_replicate, lookup_seqZ_lt by lia. f_equal. lia.
Qed.

(** ** relativate_word_positions *)

Lemma reverse_positives_spec done_ remaining acc :
  reverse_positives (done_ ++ remaining) (length done_) remaining acc
  = acc ++ negate_until_zero remaining.
Proof.
  revert done_ acc.
  induction remaining as [|x rest IH]; intros done_ acc; simpl.
  - by rewrite app_nil_r.
  - destruct (Z.eqb_spec x 0) as [->|Hx].
    + by rewrite slice_from_app.
    + specialize (IH (done_ ++ [x]) (acc ++ [- x])).
      rewrite <- app_assoc, length_app in IH. simpl in IH.
      replace (length done_ + 1)%nat with (S (length done_)) in IH by lia.
      rewrite IH. by rewrite <- app_assoc.
Qed.

Lemma relativate_word_positions_fst l :
  (relativate_word_positions l).1
  = negate_until_zero ((λ x, ceil_log2 (Z.abs x + 1)) <$> l).
Proof.
  unfold relativate_word_positions. simpl.
  exact (reverse_positives_spec [] _ []).
Qed.

Lemma negate_until_zero_length l :
  length (negate_until_zero l) = length l.
Proof.
  induction l as [|x l IH]; simpl; [done|].
  destruct (x =? 0); simpl; by rewrite ?IH.
Qed.

Lemma ceil_log2_nonneg n : 0 ≤ ceil_log2 n.
Proof. apply Z.log2_up_nonneg. Qed.

Lemma ceil_log2_zero_iff x : ceil_log2 (Z.abs x + 1) = 0 ↔ x = 0.
Proof.
  unfold ceil_log2. split.
  - intros H. apply Z.log2_up_null in H. lia.
  - intros ->. reflexivity.
Qed.

(** [ceil_log2 n] is the exponent of the least power of two that reaches
    [n]. *)
Lemma ceil_log2_bounds n :
  1 ≤ n → 2 ^ (ceil_log2 n - 1) < n ≤ 2 ^ ceil_log2 n.
Proof.
  intros Hn. unfold ceil_log2.
  destruct (Z.eq_dec n 1) as [->|Hne].
  - vm_compute. split; [reflexivity | discriminate].
  - pose proof (Z.log2_up_spec n ltac:(lia)) as H.
    rewrite <- Z.sub_1_r in H. exact H.
Qed.

Lemma negate_until_zero_split (f : Z → Z) pre post :
  Forall (λ x, f x ≠ 0) pre →
  (post = [] ∨ ∃ x rest, post = x :: rest ∧ f x = 0) →
  negate_until_zero (f <$> (pre ++ post))
  = ((λ x, - f x) <$> pre) ++ (f <$> post).
Proof.
  intros Hpre Hpost. induction Hpre as [|x pre Hx _ IH].
  - destruct Hpost as [->|(x & rest & -> & Hx)]; [done|].
    simpl. by rewrite Hx.
  - rewrite <- app_comm_cons, !fmap_cons. cbn [negate_until_zero].
    destruct (Z.eqb_spec (f x) 0); [done|]. by rewrite IH.
Qed.

Lemma get_positions_split s e n :
  0 ≤ s ≤ e ∧ e < n →
  take (Z.to_nat s) (get_positions s e n) = Py.range (- s) 0 ∧
  drop (Z.to_nat s) (get_positions s e n)
  = 0 :: Py.repeat 0 (e - s) ++ Py.range 1 (n - e).
Proof.
  intros H. unfold get_positions.
  assert (length (Py.range (- s) 0) = Z.to_nat s) as Hlen.
  { unfold Py.range. rewrite length_seqZ. f_equal. lia. }
  rewrite <- Hlen, take_app_length, drop_app_length. split; [done|].
  unfold Py.repeat. replace (Z.to_nat (e - s + 1)) with (S (Z.to_nat (e - s)))
    by lia. done.
Qed.

(** C5: for 0 <= start_idx <= end_idx < length, get_positions returns
    exactly [length] entries, and entry [i] is [i - start_idx] (negative)
    before the span, 0 inside it and [i - end_idx] (positive) after it. *)
Theorem get_positions_spec (start_idx end_idx length_ : Z) :
  0 ≤ start_idx ≤ end_idx ∧ end_idx < length_ →
  Py.len (get_positions start_idx end_idx length_) = length_ ∧
  ∀ i, 0 ≤ i < length_ →
    ∃ p, get_positions start_idx end_idx length_ !! Z.to_nat i = Some p ∧
      (i < start_idx → p = i - start_idx ∧ p < 0) ∧
      (start_idx ≤ i ≤ end_idx → p = 0) ∧
      (end_idx < i → p = i - end_idx ∧ 0 < p).
Proof.
  intros H. split; [by apply get_positions_len|].
  intros i Hi. eexists. split; [by apply get_positions_lookup|].
  destruct (Z.ltb_spec i start_idx), (Z.leb_spec i end_idx); lia.
Qed.

Lemma get_positions_elem s e n x :
  0 ≤ s ≤ e ∧ e < n → x ∈ get_positions s e n → - s ≤ x ≤ n - e - 1.
Proof.
  intros Hv Hx. unfold get_positions, Py.range, Py.repeat in Hx.
  rewrite !elem_of_app, !elem_of_seqZ, elem_of_replicate in Hx. lia.
Qed.

(** C1: on the positions get_positions produces for a span of a sentence
    of fewer than 2^29 tokens, the result of relativate_word_positions is
    ceil(log2(|x|+1)) with the sign of x, at every position x; the entries
    before the first zero (the [start_idx] entries before the span) are
    -ceil(log2(|x|+1)), those from the first zero onward are
    ceil(log2(|x|+1)); every |x|+1 is below 2^29, where the floating-point
    logarithm of the code has the exact ceiling; and ceil(log2(m)) is
    there the exponent of the least power of two that is at least m. *)
Theorem relativate_word_positions_log (start_idx end_idx length_ : Z) :
  0 ≤ start_idx ≤ end_idx ∧ end_idx < length_ →
  length_ < 2 ^ 29 →
  let positions := get_positions start_idx end_idx length_ in
  let out := (relativate_word_positions positions).1 in
  let before := take (Z.to_nat start_idx) positions in
  let onward := drop (Z.to_nat start_idx) positions in
  out = (λ x, Z.sgn x * ceil_log2 (Z.abs x + 1)) <$> positions ∧
  Forall (λ x, x < 0) before ∧ head onward = Some 0 ∧
  out = ((λ x, - ceil_log2 (Z.abs x + 1)) <$> before)
          ++ ((λ x, ceil_log2 (Z.abs x + 1)) <$> onward) ∧
  Forall (λ x, Z.abs x + 1 < 2 ^ 29) positions ∧
  ∀ x, x ∈ positions →
       2 ^ (ceil_log2 (Z.abs x + 1) - 1) < Z.abs x + 1
       ≤ 2 ^ ceil_log2 (Z.abs x + 1).
Proof.
  intros H Hsmall positions out before onward.
  destruct (get_positions_split _ _ _ H) as [Hbefore Honward].
  fold positions before in Hbefore. fold positions onward in Honward.
  assert (Forall (λ x, x < 0) before) as Hneg.
  { rewrite Hbefore. unfold Py.range. apply Forall_seqZ. lia. }
  assert (Forall (λ x, 0 ≤ x) onward) as Hpos.
  { rewrite Honward. constructor; [lia|]. apply Forall_app. split.
    - unfold Py.repeat. apply Forall_replicate. lia.
    - unfold Py.range. apply Forall_seqZ. lia. }
  assert (out = ((λ x, - ceil_log2 (Z.abs x + 1)) <$> before)
          ++ ((λ x, ceil_log2 (Z.abs x + 1)) <$> onward)) as Hout.
  { unfold out. rewrite relativate_word_positions_fst.
    rewrite <- (take_drop (Z.to_nat start_idx) positions).
    fold before onward.
    apply (negate_until_zero_split (λ x, ceil_log2 (Z.abs x + 1))).
    - eapply Forall_impl; [exact Hneg|]. intros x Hx. simpl in *.
      rewrite ceil_log2_zero_iff. lia.
    - right. rewrite Honward. eexists _, _. split; [done|]. done. }
  split; [|split; [done|split; [by rewrite Honward|split; [done|]]]].
  - rewrite Hout, <- (take_drop (Z.to_nat start_idx) positions), fmap_app.
    fold before onward. f_equal.
    + apply Forall_fmap_ext. eapply Forall_impl; [exact Hneg|].
      intros x Hx. cbv beta in *. rewrite Z.sgn_neg by done. lia.
    + apply Forall_fmap_ext. eapply Forall_impl; [exact Hpos|].
      intros x Hx. cbv beta in *. destruct (Z.eq_dec x 0) as [->|].
      * done.
      * rewrite Z.sgn_pos by lia. lia.
  - split.
    + apply Forall_forall. intros x Hx.
      apply (get_positions_elem _ _ _ _ H) in Hx. lia.
    + intros x _. apply ceil_log2_bounds. lia.
Qed.

(** C10: on a list that contains a zero, relativate_word_positions
    returns a list as long as its input and prints nothing: the branch
    that reports a length mismatch is not taken. *)
Theorem relativate_word_positions_length (positions_list : list Z) :
  0 ∈ positions_list →
  length (relativate_word_positions positions_list).1
  = length positions_list ∧
  (relativate_word_positions positions_list).2 = [].
Proof.
  intros _.
  assert (length (relativate_word_positions positions_list).1
          = length positions_list) as Hlen.
  { rewrite relativate_word_positions_fst, negate_until_zero_length.
    apply length_fmap. }
  split; [done|].
  unfold relativate_word_positions in *. simpl in *.
  rewrite bool_decide_eq_false_2; [done|].
  unfold Py.len. rewrite Hlen. auto.
Qed.

(** On the input of the example in the docstring,
    [[0,1,2,3,4,5,5,6]], the function returns [[0,1,2,2,3,3,3,3]]: the
    values of ceil(log2(x+1)), not the list the docstring shows. *)
Example relativate_word_positions_docstring_input :
  (relativate_word_positions [0; 1; 2; 3; 4; 5; 5; 6]).1
  = [0; 1; 2; 2; 3; 3; 3; 3].
Proof. reflexivity. Qed.

(** ** get_long_tensor *)

Lemma foldl_max_spec l x :
  let m := foldl Z.max x l in
  x ≤ m ∧ Forall (λ y, y ≤ m) l ∧ (m = x ∨ m ∈ l).
Proof.
  revert x. induction l as [|y l IH]; intros x; simpl.
  - split; [lia|]. split; [constructor|by left].
  - destruct (IH (Z.max x y)) as (H1 & H2 & H3).
    split; [lia|]. split.
    + constructor; [lia|done].
    + destruct H3 as [H3|H3]; [|right; by constructor].
      destruct (Z.max_spec x y) as [[? Hm]|[? Hm]]; rewrite Hm in *.
      * right. rewrite H3. by constructor.
      * by left.
Qed.

Lemma py_max_spec l :
  l ≠ [] → ∃ m, py_max l = Ok m ∧ Forall (λ y, y ≤ m) l ∧ m ∈ l.
Proof.
  destruct l as [|x l]; [done|]. intros _. simpl. eexists. split; [done|].
  destruct (foldl_max_spec l x) as (H1 & H2 & H3). split.
  - by constructor.
  - destruct H3 as [->|?]; by constructor.
Qed.

Lemma long_tensor_ok s : Forall fits_int64 s → long_tensor s = Ok s.
Proof. intros Hs. unfold long_tensor. by rewrite decide_True. Qed.

Lemma long_tensor_overflow s :
  ¬ Forall fits_int64 s → long_tensor s = Raise RuntimeError.
Proof. intros Hs. unfold long_tensor. by rewrite decide_False. Qed.

(** The loop on a tensor of [m] rows still to fill: the sequences are
    converted one after the other, so a cell that does not fit is met only
    among the first [m + 1] of them, the row index failing at sequence
    [m]. *)
Lemma fill_rows_outcome blank rest done_ (m : nat) :
  fill_rows (length done_) rest (done_ ++ replicate m blank)
  = if decide (Forall (Forall fits_int64) (take (S m) rest))
    then if decide (length rest ≤ m)%nat
         then Ok (done_ ++ ((λ s, s ++ drop (length s) blank) <$> rest)
                    ++ replicate (m - length rest) blank)
         else Raise IndexError
    else Raise RuntimeError.
Proof.
  revert done_ m. induction rest as [|s rest IH]; intros done_ m.
  - rewrite decide_True by constructor.
    rewrite decide_True by (simpl; lia). simpl. by rewrite Nat.sub_0_r.
  - cbn [fill_rows take].
    destruct (decide (Forall fits_int64 s)) as [Hs|Hs].
    2:{ rewrite (long_tensor_overflow s Hs). cbn [mbind result_bind].
        rewrite decide_False; [done|]. by intros [? _]%Forall_cons. }
    rewrite (long_tensor_ok s Hs). cbn [mbind result_bind].
    destruct m as [|m].
    + cbn [replicate]. rewrite app_nil_r, lookup_ge_None_2 by lia.
      cbn [or_raise mbind result_bind]. rewrite take_0.
      rewrite decide_True by (by repeat constructor).
      by rewrite decide_False by (simpl; lia).
    + cbn [replicate]. rewrite list_lookup_middle by done.
      cbn [or_raise mbind result_bind].
      replace (length done_) with (length done_ + 0)%nat at 2 by lia.
      rewrite insert_app_r. cbn [insert list_insert].
      specialize (IH (done_ ++ [s ++ drop (length s) blank]) m).
      rewrite length_app, <- app_assoc in IH. simpl in IH.
      replace (length done_ + 1)%nat with (S (length done_)) in IH by lia.
      rewrite IH.
      destruct (decide (Forall (Forall fits_int64) (take (S m) rest)))
        as [Hr|Hr].
      * rewrite (decide_True (P := Forall _ (s :: _)))
          by (by constructor).
        repeat case_decide; simpl in *; try lia; [|done].
        by rewrite <- app_assoc.
      * rewrite (decide_False (P := Forall _ (s :: _))); [done|].
        by intros [_ ?]%Forall_cons.
Qed.

Lemma get_long_tensor_ok tokens_list :
  tokens_list ≠ [] →
  fits_int64 PAD_ID → Forall (Forall fits_int64) tokens_list →
  ∃ token_len,
    py_max (Py.len <$> tokens_list) = Ok token_len ∧
    get_long_tensor tokens_list (Py.len tokens_list)
    = Ok (pad_to token_len <$> tokens_list).
Proof.
  intros Hne Hpad Hfits.
  destruct (py_max_spec (Py.len <$> tokens_list)) as (m & Hm & Hle & Hin).
  { by destruct tokens_list. }
  exists m. split; [done|].
  unfold get_long_tensor. rewrite Hm. cbn [mbind result_bind].
  destruct (Z.ltb_spec (Py.len tokens_list) 0) as [Hlt|_].
  { unfold Py.len in Hlt. lia. }
  rewrite decide_True by done.
  unfold Py.repeat at 1. unfold Py.len at 1. rewrite Nat2Z.id.
  pose proof (fill_rows_outcome (Py.repeat PAD_ID m) tokens_list []
                (length tokens_list)) as Hfill.
  simpl in Hfill. rewrite Hfill.
  rewrite decide_True by (by apply Forall_take).
  rewrite decide_True by done.
  rewrite Nat.sub_diag, app_nil_r. f_equal.
  apply list_fmap_ext. intros i s Hs. unfold pad_to. f_equal.
  unfold Py.repeat. rewrite drop_replicate. f_equal. unfold Py.len. lia.
Qed.

Lemma pad_to_len token_len s :
  Py.len s ≤ token_len → Py.len (pad_to token_len s) = token_len.
Proof.
  intros. unfold pad_to. rewrite len_app, len_repeat. lia.
Qed.

Lemma pad_to_full token_len s : Py.len s = token_len → pad_to token_len s = s.
Proof.
  intros H. unfold pad_to, Py.repeat. rewrite H, Z.sub_diag. simpl.
  apply app_nil_r.
Qed.

(** C3: for a non-empty list of non-empty sequences of 64-bit integers,
    with [batch_size] the number of sequences and PAD_ID a 64-bit integer,
    get_long_tensor returns a matrix of [batch_size] rows of [L] cells,
    [L] the greatest sequence length; row [i] starts with sequence [i] and
    is PAD_ID in every other cell; when all sequences have the same length
    the input comes back as it is. *)
Theorem get_long_tensor_spec (tokens_list : list (list Z)) (batch_size : Z) :
  tokens_list ≠ [] →
  Forall (λ s, s ≠ []) tokens_list →
  batch_size = Py.len tokens_list →
  fits_int64 PAD_ID →
  Forall (Forall fits_int64) tokens_list →
  padded_matrix tokens_list batch_size.
Proof.
  intros Hne _ -> Hpad Hfits.
  destruct (get_long_tensor_ok tokens_list Hne Hpad Hfits)
    as (L & Hmax & Hok).
  destruct (py_max_spec (Py.len <$> tokens_list)) as (m & Hm & Hle & Hin).
  { by destruct tokens_list. }
  rewrite Hmax in Hm. injection Hm as <-.
  rewrite Forall_fmap in Hle.
  exists (pad_to L <$> tokens_list), L.
  split; [done|]. split; [exact Hle|]. split.
  { apply list_elem_of_fmap in Hin as (s & Hs1 & Hs2). exists s. by split. }
  split; [apply len_fmap|]. split.
  { apply Forall_fmap. eapply Forall_impl; [exact Hle|].
    intros s Hs. by apply pad_to_len. }
  split.
  - intros i s Hs. exists (pad_to L s). split.
    + by rewrite list_lookup_fmap, Hs.
    + unfold pad_to. rewrite take_app_length, drop_app_length.
      split; [done|]. unfold Py.repeat. by apply Forall_replicate.
  - intros Heq. rewrite <- (list_fmap_id tokens_list) at 2.
    apply Forall_fmap_ext. eapply Forall_impl; [exact Heq|].
    intros s Hs. by apply pad_to_full.
Qed.

(** ** word_dropout *)

Lemma word_dropout_length tokens dropout g :
  length (word_dropout tokens dropout g).1 = length tokens.
Proof.
  revert g. induction tokens as [|x tokens IH]; intros g; simpl; [done|].
  case_bool_decide.
  - destruct (random g) as [r g1]. specialize (IH g1).
    destruct (word_dropout tokens dropout g1). simpl in *. by rewrite IH.
  - specialize (IH g). destruct (word_dropout tokens dropout g).
    simpl in *. by rewrite IH.
Qed.

Lemma word_dropout_lookup tokens dropout g i x :
  tokens !! i = Some x →
  ∃ y, (word_dropout tokens dropout g).1 !! i = Some y ∧
    (y = x ∨ y = UNK_ID) ∧ (x = UNK_ID → y = UNK_ID).
Proof.
  revert g i. induction tokens as [|t tokens IH]; intros g i Hi; [done|].
  simpl. case_bool_decide as Ht.
  - destruct (random g) as [r g1]. specialize (IH g1).
    destruct (word_dropout tokens dropout g1) as [ys g2].
    destruct i as [|i]; simpl in *.
    + injection Hi as <-. eexists. split; [done|].
      destruct (Qlt_le_dec r dropout); auto.
    + by apply IH.
  - specialize (IH g). destruct (word_dropout tokens dropout g) as [ys g2].
    destruct i as [|i]; simpl in *.
    + injection Hi as <-. eexists. split; [done|]. auto.
    + by apply IH.
Qed.

Lemma word_dropout_zero tokens dropout g :
  (dropout == 0)%Q → (word_dropout tokens dropout g).1 = tokens.
Proof.
  intros Hz. revert g.
  induction tokens as [|t tokens IH]; intros g; simpl; [done|].
  case_bool_decide as Ht.
  - pose proof (random_range g) as [Hr _].
    destruct (random g) as [r g1]. specialize (IH g1).
    destruct (word_dropout tokens dropout g1) as [ys g2]. simpl in *.
    destruct (Qlt_le_dec r dropout) as [Hlt|_].
    + rewrite Hz in Hlt. exfalso. eapply Qlt_not_le; eauto.
    + by rewrite IH.
  - specialize (IH g). destruct (word_dropout tokens dropout g).
    simpl in *. by rewrite IH.
Qed.

(** ** sorted *)

Lemma sorted_insert_perm {A} (lt : A → A → bool) x l :
  sorted_insert lt x l ≡ₚ x :: l.
Proof.
  induction l as [|y l IH]; simpl; [done|].
  destruct (lt y x); [|done]. rewrite IH. apply Permutation_swap.
Qed.

Lemma sorted_asc_perm {A} (lt : A → A → bool) l : sorted_asc lt l ≡ₚ l.
Proof.
  induction l as [|x l IH]; [done|].
  change (sorted_asc lt (x :: l)) with (sorted_insert lt x (sorted_asc lt l)).
  rewrite sorted_insert_perm. by rewrite IH.
Qed.

Lemma sorted_perm {A} (lt : A → A → bool) r l : sorted lt r l ≡ₚ l.
Proof.
  unfold sorted. destruct r.
  - by rewrite reverse_Permutation, sorted_asc_perm, reverse_Permutation.
  - apply sorted_asc_perm.
Qed.

(** Sorting a list whose elements carry pairwise distinct tags, when [lt]
    decides a strict order [R] between any two elements of distinct tags
    and [R] is total on them. *)
Section sorted_distinct.
Context {A : Type} (lt : A → A → bool) (R : Relation_Definitions.relation A)
  (tag : A → Z).
Hypothesis lt_R : ∀ x y, tag x ≠ tag y → lt x y = true ↔ R x y.
Hypothesis R_total : ∀ x y, tag x ≠ tag y → R x y ∨ R y x.
Hypothesis R_trans : ∀ x y z, R x y → R y z → R x z.
Hypothesis R_asym : ∀ x y, R x y → R y x → False.

Lemma sorted_insert_sorted x l :
  StronglySorted R l → Forall (λ y, tag y ≠ tag x) l →
  StronglySorted R (sorted_insert lt x l).
Proof.
  intros Hs Hx. induction Hs as [|y l Hs IH Hy]; simpl.
  - repeat constructor.
  - apply Forall_cons in Hx as [Hyx Hx].
    destruct (lt y x) eqn:Hlt.
    + apply lt_R in Hlt; [|done]. constructor; [by apply IH|].
      rewrite sorted_insert_perm. by constructor.
    + assert (R x y) as Hxy.
      { destruct (R_total y x Hyx) as [Hyx'|]; [|done].
        apply lt_R in Hyx'; [congruence|done]. }
      constructor; [by constructor|].
      constructor; [done|]. eapply Forall_impl; [exact Hy|].
      intros z Hz. by eapply R_trans.
Qed.

Lemma sorted_asc_sorted l :
  NoDup (tag <$> l) → StronglySorted R (sorted_asc lt l).
Proof.
  induction l as [|x l IH]; intros Hnd.
  - constructor.
  - rewrite fmap_cons in Hnd. apply NoDup_cons in Hnd as [Hx Hnd].
    change (sorted_asc lt (x :: l))
      with (sorted_insert lt x (sorted_asc lt l)).
    apply sorted_insert_sorted; [by apply IH|].
    rewrite sorted_asc_perm. apply Forall_forall. intros y Hy Heq.
    apply Hx. rewrite <- Heq. by apply list_elem_of_fmap_2.
Qed.

Lemma sorted_asc_unique l l' :
  NoDup (tag <$> l) → StronglySorted R l' → l' ≡ₚ l → sorted_asc lt l = l'.
Proof.
  intros Hnd Hs Hp.
  apply (StronglySorted_unique_strong R).
  - intros x y _ _ Hxy Hyx. destruct (R_asym x y Hxy Hyx).
  - by apply sorted_asc_sorted.
  - done.
  - by rewrite sorted_asc_perm.
Qed.

Lemma sorted_reverse_sorted l :
  NoDup (tag <$> l) → StronglySorted (flip R) (sorted lt true l).
Proof.
  intros Hnd. unfold sorted.
  apply Sorted_StronglySorted.
  { intros x y z Hxy Hyz. unfold flip in *. by eapply R_trans. }
  apply Sorted_reverse, StronglySorted_Sorted, sorted_asc_sorted.
  by rewrite fmap_reverse, reverse_Permutation.
Qed.

End sorted_distinct.

(** ** sort_all *)

Lemma zip_fields_columns batch : zip_fields (columns batch) = batch.
Proof.
  unfold zip_fields, columns. simpl.
  induction batch as [|[] batch IH]; simpl; [done|]. f_equal. exact IH.
Qed.

Lemma unsorted_all_rows batch :
  zip_with (λ '(n, i) e, mkRow n i e)
    (zip (Py.len <$> f_tokens (columns batch))
       (Py.range 0 (Py.len (Py.len <$> f_tokens (columns batch)))))
    (zip_fields (columns batch))
  = rows_of batch.
Proof.
  rewrite zip_fields_columns. unfold rows_of, columns, Py.range. simpl.
  rewrite !len_fmap. apply list_eq. intros i.
  rewrite list_lookup_imap, !lookup_zip_with, !list_lookup_fmap.
  destruct (batch !! i) as [e|] eqn:He; simpl.
  - apply lookup_lt_Some in He.
    rewrite lookup_seqZ_lt by (unfold Py.len; lia). done.
  - done.
Qed.

Lemma rows_of_idx batch : row_idx <$> rows_of batch = Py.range 0 (Py.len batch).
Proof.
  unfold rows_of, Py.range. apply list_eq. intros i.
  rewrite list_lookup_fmap, list_lookup_imap.
  destruct (batch !! i) as [e|] eqn:He; simpl.
  - apply lookup_lt_Some in He.
    rewrite lookup_seqZ_lt by (unfold Py.len; lia). done.
  - apply lookup_ge_None in He.
    rewrite lookup_seqZ_ge by (unfold Py.len; lia). done.
Qed.

Lemma rows_of_elem batch r :
  r ∈ rows_of batch →
  0 ≤ row_idx r ∧ batch !! Z.to_nat (row_idx r) = Some (row_fields r) ∧
  row_len r = Py.len (ex_tokens (row_fields r)).
Proof.
  intros (i & Hi)%list_elem_of_lookup. unfold rows_of in Hi.
  rewrite list_lookup_imap in Hi.
  destruct (batch !! i) as [e|] eqn:He; simpl in Hi; [|done].
  injection Hi as <-. simpl. rewrite Nat2Z.id. split; [lia|done].
Qed.

Lemma row_lt_before a b :
  row_idx a ≠ row_idx b → row_lt a b = true ↔ row_before a b.
Proof.
  intros Hab. unfold row_lt, row_before.
  repeat case_bool_decide; rewrite ?Z.ltb_lt; try done; lia.
Qed.

Lemma row_before_total a b :
  row_idx a ≠ row_idx b → row_before a b ∨ row_before b a.
Proof. unfold row_before. lia. Qed.

Lemma row_before_trans a b c : row_before a b → row_before b c → row_before a c.
Proof. unfold row_before. lia. Qed.

Lemma row_before_asym a b : row_before a b → row_before b a → False.
Proof. unfold row_before. lia. Qed.

Lemma sort_all_ok batch :
  batch ≠ [] →
  let sorted_rows := sorted row_lt true (rows_of batch) in
  sort_all (columns batch) (Py.len <$> f_tokens (columns batch))
  = Ok (columns (row_fields <$> sorted_rows), row_idx <$> sorted_rows).
Proof.
  intros Hne sorted_rows. unfold sort_all. rewrite unsorted_all_rows.
  fold sorted_rows. destruct sorted_rows eqn:Hs; [|done].
  exfalso. apply Hne.
  assert (sorted_rows ≡ₚ rows_of batch) as Hp by apply sorted_perm.
  rewrite Hs in Hp. apply Permutation_nil in Hp.
  unfold rows_of in Hp. apply (f_equal length) in Hp.
  rewrite length_imap in Hp. by destruct batch.
Qed.

Lemma sorted_rows_sorted batch :
  StronglySorted (flip row_before) (sorted row_lt true (rows_of batch)).
Proof.
  apply (sorted_reverse_sorted row_lt row_before row_idx).
  - apply row_lt_before.
  - apply row_before_total.
  - apply row_before_trans.
  - rewrite rows_of_idx. apply NoDup_seqZ.
Qed.

Lemma rows_of_fields batch : row_fields <$> rows_of batch = batch.
Proof.
  unfold rows_of. apply list_eq. intros i.
  rewrite list_lookup_fmap, list_lookup_imap. by destruct (batch !! i).
Qed.

Lemma imap_offset_sorted (g : Example → Z) (k : nat) (batch : list Example) :
  StronglySorted (λ a b, row_idx a < row_idx b)
    (imap (λ i e, mkRow (g e) (Z.of_nat (k + i)) e) batch).
Proof.
  revert k. induction batch as [|e batch IH]; intros k.
  - constructor.
  - rewrite imap_cons. constructor.
    + erewrite imap_ext; [apply (IH (S k))|].
      intros i x _. simpl. do 2 f_equal. lia.
    + apply Forall_forall. intros r (i & Hi)%list_elem_of_lookup.
      rewrite list_lookup_imap in Hi.
      destruct (batch !! i); simpl in Hi; [|done].
      injection Hi as <-. simpl. lia.
Qed.

Lemma rows_of_sorted_by_idx batch :
  StronglySorted (λ a b, row_idx a < row_idx b) (rows_of batch).
Proof. apply (imap_offset_sorted (λ e, Py.len (ex_tokens e)) 0). Qed.

Lemma zip_fmap_both {A B C} (g : A → B) (h : A → C) (l : list A) :
  zip (g <$> l) (h <$> l) = (λ x, (g x, h x)) <$> l.
Proof. induction l as [|x l IH]; simpl; [done|]. f_equal. exact IH. Qed.

(** Sorting by the original index puts back, in the order of the batch,
    whatever was computed from the sorted rows. *)
Lemma unsort_sorted_rows {A} (lt : A → A → bool) (f : Example → A) batch :
  let sorted_rows := sorted row_lt true (rows_of batch) in
  unsort lt (row_idx <$> sorted_rows) (f <$> (row_fields <$> sorted_rows))
  = f <$> batch.
Proof.
  intros rs. unfold unsort, sorted.
  rewrite <- list_fmap_compose, zip_fmap_both.
  set (h := λ r : Row, (row_idx r, (f ∘ row_fields) r)).
  assert (rs ≡ₚ rows_of batch) as Hp by apply sorted_perm.
  rewrite (sorted_asc_unique (pair_lt lt) (λ a b, a.1 < b.1) fst)
    with (l' := h <$> rows_of batch).
  - rewrite <- list_fmap_compose.
    rewrite <- (rows_of_fields batch) at 2. by rewrite <- list_fmap_compose.
  - intros a b Hab. unfold pair_lt. rewrite bool_decide_eq_true_2 by done.
    apply Z.ltb_lt.
  - intros a b Hab. lia.
  - intros a b c. lia.
  - intros a b. lia.
  - rewrite <- list_fmap_compose, Hp.
    change (fst ∘ h) with row_idx. rewrite rows_of_idx. apply NoDup_seqZ.
  - eapply StronglySorted_fmap; [|apply rows_of_sorted_by_idx]. done.
  - by rewrite Hp.
Qed.

(** ** __getitem__ *)

Lemma get_long_tensor_pad_rows l n :
  l ≠ [] → n = Py.len l →
  fits_int64 PAD_ID → Forall (Forall fits_int64) l →
  get_long_tensor l n = Ok (pad_rows l).
Proof.
  intros Hne -> Hpad Hfits.
  destruct (get_long_tensor_ok l Hne Hpad Hfits) as (L & Hmax & Hok).
  unfold pad_rows. rewrite Hmax. exact Hok.
Qed.

(** With as many rows as sequences no row index fails: the padded rows
    come back when every cell fits, and the conversion fails otherwise. *)
Lemma get_long_tensor_rows l n :
  l ≠ [] → n = Py.len l →
  get_long_tensor l n
  = if decide (fits_int64 PAD_ID ∧ Forall (Forall fits_int64) l)
    then Ok (pad_rows l) else Raise RuntimeError.
Proof.
  intros Hne ->.
  destruct (decide (fits_int64 PAD_ID ∧ Forall (Forall fits_int64) l))
    as [[Hpad Hfits]|Hno].
  { by apply get_long_tensor_pad_rows. }
  destruct (py_max_spec (Py.len <$> l)) as (m & Hm & _).
  { by destruct l. }
  unfold get_long_tensor. rewrite Hm. cbn [mbind result_bind].
  destruct (Z.ltb_spec (Py.len l) 0) as [Hlt|_]; [done|].
  destruct (decide (fits_int64 PAD_ID)) as [Hpad|Hpad]; [|done].
  unfold Py.repeat at 1. unfold Py.len at 1. rewrite Nat2Z.id.
  pose proof (fill_rows_outcome (Py.repeat PAD_ID m) l [] (length l))
    as Hfill.
  simpl in Hfill. rewrite Hfill. rewrite decide_False; [done|].
  rewrite take_ge by lia. intros Hfits. by apply Hno.
Qed.

Lemma word_dropout_fits tokens dropout g :
  fits_int64 UNK_ID → Forall fits_int64 tokens →
  Forall fits_int64 (word_dropout tokens dropout g).1.
Proof.
  intros Hunk Hfits. revert g.
  induction Hfits as [|x tokens Hx _ IH]; intros g; simpl; [constructor|].
  case_bool_decide.
  - destruct (random g) as [r g1]. specialize (IH g1).
    destruct (word_dropout tokens dropout g1). simpl in *.
    constructor; [by destruct (Qlt_le_dec r dropout)|done].
  - specialize (IH g). destruct (word_dropout tokens dropout g).
    simpl in *. by constructor.
Qed.

Lemma word_dropout_all_fits sents dropout g :
  fits_int64 UNK_ID → Forall (Forall fits_int64) sents →
  Forall (Forall fits_int64) (word_dropout_all sents dropout g).1.
Proof.
  intros Hunk Hfits. revert g.
  induction Hfits as [|s sents Hs _ IH]; intros g; simpl; [constructor|].
  pose proof (word_dropout_fits s dropout g Hunk Hs) as Hw.
  destruct (word_dropout s dropout g) as [w g1]. specialize (IH g1).
  destruct (word_dropout_all sents dropout g1). simpl in *. by constructor.
Qed.

Lemma sorted_rows_fits batch :
  Forall example_fits batch →
  Forall example_fits (row_fields <$> sorted row_lt true (rows_of batch)).
Proof.
  intros Hfits. by rewrite (sorted_perm _ _ _), rows_of_fields.
Qed.

Lemma word_dropout_all_length sents dropout g :
  length (word_dropout_all sents dropout g).1 = length sents.
Proof.
  revert g. induction sents as [|s sents IH]; intros g; simpl; [done|].
  destruct (word_dropout s dropout g) as [w g1]. specialize (IH g1).
  destruct (word_dropout_all sents dropout g1). simpl in *. by rewrite IH.
Qed.

Lemma py_index_lookup {A} (l : list A) (k : Z) x :
  0 ≤ k → l !! Z.to_nat k = Some x → py_index l k = Ok x.
Proof.
  intros Hk Hx. assert ((k <? 0) = false) as Hf by lia.
  unfold py_index. rewrite Hf. cbv zeta. by rewrite Hf, Hx.
Qed.

Lemma transpose_ok batch : batch ≠ [] → transpose batch = Ok (columns batch).
Proof. by destruct batch. Qed.

(** What [__getitem__] returns for a valid key whose batch is not empty. *)
Lemma getitem_ok self key k batch g :
  key_int key = Some k → 0 ≤ k →
  data self !! Z.to_nat k = Some batch → batch ≠ [] →
  batch_fits (eval self) batch →
  let sorted_rows := sorted row_lt true (rows_of batch) in
  let tokens := ex_tokens <$> (row_fields <$> sorted_rows) in
  let words :=
    if eval self then (tokens, g)
    else word_dropout_all tokens (opt_word_dropout (opt self)) g in
  getitem self key g = (words.2, Ok (batch_of sorted_rows words.1)).
Proof.
  intros Hkey Hk Hbatch Hne (Hpad & Hunk & Hfits) sorted_rows tokens words.
  apply sorted_rows_fits in Hfits. fold sorted_rows in Hfits.
  assert (length sorted_rows = length batch) as Hlen.
  { unfold sorted_rows. rewrite (sorted_perm _ _ _).
    unfold rows_of. by rewrite length_imap. }
  assert (∀ {B} (f : Example → B),
            Py.len batch = Py.len (f <$> (row_fields <$> sorted_rows)) ∧
            f <$> (row_fields <$> sorted_rows) ≠ []) as Hcol.
  { intros B f. split.
    - unfold Py.len. by rewrite !length_fmap, Hlen.
    - intros Hnil. apply (f_equal length) in Hnil.
      rewrite !length_fmap, Hlen in Hnil. by destruct batch. }
  unfold getitem. rewrite Hkey.
  apply lookup_lt_Some in Hbatch as Hlt.
  rewrite bool_decide_eq_false_2 by (unfold Py.len; lia).
  rewrite (py_index_lookup _ _ _ Hk Hbatch).
  cbn [mbind result_bind].
  rewrite (transpose_ok batch Hne). cbn [mbind result_bind].
  rewrite (sort_all_ok batch Hne). cbn [mbind result_bind].
  fold sorted_rows. change (f_tokens (columns (row_fields <$> sorted_rows)))
    with tokens.
  fold words. destruct words as [ws g'] eqn:Hw. cbn [fst snd].
  assert (Py.len batch = Py.len ws ∧ ws ≠ []) as [Hws1 Hws2].
  { assert (length ws = length tokens) as Hl.
    { unfold words in Hw. destruct (eval self).
      - by injection Hw as <- _.
      - rewrite <- (word_dropout_all_length tokens
                     (opt_word_dropout (opt self)) g). by rewrite Hw. }
    destruct (Hcol _ ex_tokens) as [H1 H2]. fold tokens in H1, H2. split.
    - rewrite H1. unfold Py.len. by rewrite Hl.
    - intros ->. by destruct tokens. }
  assert (Forall (Forall fits_int64) ws) as Hwfits.
  { assert (Forall (Forall fits_int64) tokens) as Htfits.
    { apply Forall_fmap. eapply Forall_impl; [exact Hfits|].
      intros e He. apply He. }
    unfold words in Hw. destruct (eval self).
    - by injection Hw as <- _.
    - pose proof (word_dropout_all_fits tokens (opt_word_dropout (opt self))
                    g (Hunk eq_refl) Htfits) as Hd.
      by rewrite Hw in Hd. }
  rewrite (get_long_tensor_pad_rows ws) by done. cbn [mbind result_bind].
  unfold columns at 1 2 3 4 5 6 7.
  cbn [f_pos f_ner f_deprel f_subj_positions f_obj_positions
       f_inst_position f_relation].
  rewrite !get_long_tensor_pad_rows;
    try first [apply Hcol | exact Hpad
              | apply Forall_fmap; eapply Forall_impl; [exact Hfits|];
                by intros e (?&?&?&?&?&?&?&?)].
  cbn [mbind result_bind]. rewrite long_tensor_ok; [done|].
  apply Forall_fmap. eapply Forall_impl; [exact Hfits|].
  by intros e (?&?&?&?&?&?&?&?).
Qed.

Lemma bind_overflow_only {A B} (m : result A) (f : A → result B) :
  (∃ a, m = Ok a) ∨ m = Raise RuntimeError →
  (∀ a, (∃ b, f a = Ok b) ∨ f a = Raise RuntimeError) →
  (∃ b, m ≫= f = Ok b) ∨ m ≫= f = Raise RuntimeError.
Proof. intros [[a ->]| ->] Hf; [apply Hf|by right]. Qed.

(** A valid key never ends in an error of the index: the batch comes
    back, or a number that is not a 64-bit integer is refused. *)
Lemma getitem_valid_outcome self key k batch g :
  key_int key = Some k → 0 ≤ k →
  data self !! Z.to_nat k = Some batch → batch ≠ [] →
  (∃ b, (getitem self key g).2 = Ok b) ∨
  (getitem self key g).2 = Raise RuntimeError.
Proof.
  intros Hkey Hk Hbatch Hne.
  set (sorted_rows := sorted row_lt true (rows_of batch)).
  assert (length sorted_rows = length batch) as Hlen.
  { unfold sorted_rows. rewrite (sorted_perm _ _ _).
    unfold rows_of. by rewrite length_imap. }
  assert (∀ {B} (f : Example → B),
            f <$> (row_fields <$> sorted_rows) ≠ [] ∧
            Py.len batch = Py.len (f <$> (row_fields <$> sorted_rows)))
    as Hcol.
  { intros B f. split.
    - intros Hnil. apply (f_equal length) in Hnil.
      rewrite !length_fmap, Hlen in Hnil. by destruct batch.
    - unfold Py.len. by rewrite !length_fmap, Hlen. }
  unfold getitem. rewrite Hkey.
  apply lookup_lt_Some in Hbatch as Hlt.
  rewrite bool_decide_eq_false_2 by (unfold Py.len; lia).
  rewrite (py_index_lookup _ _ _ Hk Hbatch).
  cbn [mbind result_bind].
  rewrite (transpose_ok batch Hne). cbn [mbind result_bind].
  rewrite (sort_all_ok batch Hne). cbn [mbind result_bind].
  fold sorted_rows.
  set (tokens := f_tokens (columns (row_fields <$> sorted_rows))).
  set (words := if eval self then (tokens, g)
                else word_dropout_all tokens (opt_word_dropout (opt self)) g).
  destruct words as [ws g'] eqn:Hw. cbn [fst snd].
  assert (ws ≠ [] ∧ Py.len batch = Py.len ws) as Hws.
  { assert (length ws = length tokens) as Hl.
    { unfold words in Hw. destruct (eval self).
      - by injection Hw as <- _.
      - rewrite <- (word_dropout_all_length tokens
                     (opt_word_dropout (opt self)) g). by rewrite Hw. }
    destruct (Hcol _ ex_tokens) as [H1 H2].
    change (ex_tokens <$> (row_fields <$> sorted_rows)) with tokens in H1, H2.
    split.
    - intros ->. by destruct tokens.
    - rewrite H2. unfold Py.len. by rewrite Hl. }
  rewrite (get_long_tensor_rows ws) by apply Hws.
  unfold columns at 1 2 3 4 5 6 7.
  cbn [f_pos f_ner f_deprel f_subj_positions f_obj_positions
       f_inst_position f_relation].
  rewrite !get_long_tensor_rows by apply Hcol. unfold long_tensor.
  repeat (apply bind_overflow_only; [case_decide; eauto|intros ?]).
  left. eauto.
Qed.

(** ** Chunking into batches *)

Lemma slice_nonneg {A} (l : list A) i j :
  0 ≤ i ≤ j →
  Py.slice l i j = take (Z.to_nat (j - i)) (drop (Z.to_nat i) l).
Proof.
  intros Hij. unfold Py.slice, Py.clamp.
  destruct (Z.ltb_spec i 0); [lia|]. destruct (Z.ltb_spec j 0); [lia|].
  destruct (Z_le_gt_dec i (Z.of_nat (length l))) as [Hi|Hi].
  - rewrite (Z.min_l i) by lia.
    destruct (Z_le_gt_dec j (Z.of_nat (length l))) as [Hj|Hj].
    + rewrite (Z.min_l j), Z.max_r by lia. done.
    + rewrite (Z.min_r j), Z.max_r by lia.
      rewrite !take_ge; [done| |]; rewrite length_drop; lia.
  - rewrite !drop_ge by lia. by rewrite !take_nil.
Qed.

(** The number of batches: the ceiling of [n / batch_size]. *)
Lemma ceil_div_step n i step :
  0 < step → i < n →
  (n - i + step - 1) / step = 1 + (n - (i + step) + step - 1) / step.
Proof.
  intros Hs Hi.
  replace (n - i + step - 1) with (1 * step + (n - (i + step) + step - 1))
    by lia.
  rewrite Z.div_add_l by lia. done.
Qed.

Lemma ceil_div_nonpos n i step :
  0 < step → n ≤ i → (n - i + step - 1) / step ≤ 0.
Proof.
  intros Hs Hi. assert ((n - i + step - 1) / step < 1); [|lia].
  apply Z.div_lt_upper_bound; lia.
Qed.

Lemma ceil_div_lt n k step :
  0 < step → k < (n + step - 1) / step → k * step < n.
Proof.
  intros Hs Hk. pose proof (Z.mul_div_le (n + step - 1) step Hs). nia.
Qed.

Lemma range_up_closed fuel i stop step :
  0 < step → stop - i ≤ Z.of_nat fuel →
  Py.range_up fuel i stop step
  = (λ k, i + Z.of_nat k * step) <$>
      seq 0 (Z.to_nat ((stop - i + step - 1) / step)).
Proof.
  intros Hs. revert i. induction fuel as [|fuel IH]; intros i Hf; simpl.
  - pose proof (ceil_div_nonpos stop i step Hs ltac:(lia)).
    by replace (Z.to_nat _) with 0%nat by lia.
  - destruct (Z.ltb_spec i stop) as [Hlt|Hge].
    + rewrite IH by lia. rewrite (ceil_div_step stop i step) by done.
      pose proof (Z.div_pos (stop - (i + step) + step - 1) step
                    ltac:(lia) Hs).
      rewrite Z2Nat.inj_add by lia. simpl. f_equal; [lia|].
      rewrite <- fmap_S_seq, <- list_fmap_compose.
      apply list_fmap_ext. intros ? k _. simpl. lia.
    + pose proof (ceil_div_nonpos stop i step Hs Hge).
      by replace (Z.to_nat _) with 0%nat by lia.
Qed.

Lemma concat_chunks {A} (data : list A) step fuel i :
  0 < step → 0 ≤ i → Py.len data - i ≤ Z.of_nat fuel →
  concat ((λ i, Py.slice data i (i + step)) <$>
            Py.range_up fuel i (Py.len data) step)
  = drop (Z.to_nat i) data.
Proof.
  intros Hs. revert i. induction fuel as [|fuel IH]; intros i Hi Hf; simpl.
  - rewrite drop_ge; [done|]. unfold Py.len in Hf. lia.
  - destruct (Z.ltb_spec i (Py.len data)) as [Hlt|Hge]; simpl.
    + rewrite IH by lia. rewrite slice_nonneg by lia.
      replace (Z.to_nat (i + step))
        with (Z.to_nat i + Z.to_nat (i + step - i))%nat by lia.
      rewrite <- drop_drop. apply take_drop.
    + rewrite drop_ge; [done|]. unfold Py.len in Hge. lia.
Qed.

(** The batches [chunk] builds from [n] examples, in closed form. *)
Lemma chunk_closed {A} (data : list A) (batch_size : Z) :
  0 < batch_size →
  chunk data batch_size
  = Ok ((λ k, take (Z.to_nat batch_size)
                (drop (k * Z.to_nat batch_size) data)) <$>
          seq 0 (Z.to_nat ((Py.len data + batch_size - 1) / batch_size))).
Proof.
  intros Hs. unfold chunk, Py.range_step.
  destruct (Z.eqb_spec batch_size 0); [lia|].
  destruct (Z.ltb_spec 0 batch_size); [|lia].
  rewrite range_up_closed by lia. rewrite Z.sub_0_r at 1. f_equal.
  rewrite <- list_fmap_compose. apply list_fmap_ext. intros ? k _. simpl.
  rewrite slice_nonneg by lia. f_equal; [f_equal; lia|f_equal; lia].
Qed.

Lemma chunk_nonempty {A} (data : list A) (batch_size : Z) batches :
  chunk data batch_size = Ok batches → Forall (λ b, b ≠ []) batches.
Proof.
  unfold chunk, Py.range_step.
  destruct (Z.eqb_spec batch_size 0); [done|].
  destruct (Z.ltb_spec 0 batch_size) as [Hs|Hs].
  - intros [= <-]. apply Forall_fmap, Forall_forall. intros i Hi.
    rewrite range_up_closed in Hi by lia.
    apply list_elem_of_fmap in Hi as (k & -> & Hk).
    apply elem_of_seq in Hk. simpl.
    assert (Z.of_nat k * batch_size < Py.len data) as Hlt.
    { apply ceil_div_lt; [done|]. rewrite Z.sub_0_r in Hk. lia. }
    rewrite slice_nonneg by lia. intros Hnil.
    apply (f_equal length) in Hnil.
    rewrite length_take, length_drop in Hnil. unfold Py.len in Hlt.
    simpl in Hnil. lia.
  - intros [= <-]. replace (Z.to_nat (0 - Py.len data)) with 0%nat.
    + constructor.
    + unfold Py.len. lia.
Qed.

Lemma ceil_div_cases n step :
  0 < step → 0 ≤ n →
  let c := (n + step - 1) / step in
  (c - 1) * step < n ≤ c * step ∧
  n - (c - 1) * step = (if n mod step =? 0 then step else n mod step).
Proof.
  intros Hs Hn c.
  pose proof (Z.div_mod n step ltac:(lia)) as Hdm.
  pose proof (Z.mod_pos_bound n step Hs) as Hr.
  assert (c = if n mod step =? 0 then n / step else n / step + 1) as Hc.
  { unfold c. destruct (Z.eqb_spec (n mod step) 0) as [H0|H0].
    - symmetry. apply (Z.div_unique _ _ _ (step - 1)); lia.
    - symmetry. apply (Z.div_unique _ _ _ (n mod step - 1)); lia. }
  destruct (Z.eqb_spec (n mod step) 0); nia.
Qed.

(** ** Shuffling and __init__ *)

Lemma select_cons_inv {A} (data : list A) i idx out :
  select data (i :: idx) = Ok out ↔
  ∃ x xs, py_index data i = Ok x ∧ select data idx = Ok xs ∧ out = x :: xs.
Proof.
  simpl. destruct (py_index data i) as [x|]; simpl.
  - destruct (select data idx) as [xs|]; simpl.
    + split; [intros [= <-]; eauto|]. by intros (? & ? & [= <-] & [= <-] & ->).
    + split; [done|]. by intros (? & ? & _ & ? & _).
  - split; [done|]. by intros (? & ? & ? & _).
Qed.

Lemma select_perm {A} (data : list A) idx idx' :
  idx ≡ₚ idx' → ∀ out', select data idx' = Ok out' →
  ∃ out, select data idx = Ok out ∧ out ≡ₚ out'.
Proof.
  induction 1 as [|i idx idx' Hp IH|i j idx|idx1 idx2 idx3 _ IH1 _ IH2];
    intros out' Hout'.
  - eauto.
  - apply select_cons_inv in Hout' as (x & xs & Hx & Hxs & ->).
    destruct (IH _ Hxs) as (ys & Hys & Hperm).
    exists (x :: ys). split; [|by constructor].
    apply select_cons_inv. eauto.
  - apply select_cons_inv in Hout' as (x & xs' & Hx & Hxs' & ->).
    apply select_cons_inv in Hxs' as (y & xs & Hy & Hxs & ->).
    exists (y :: x :: xs). split; [|apply Permutation_swap].
    apply select_cons_inv. eexists _, _. split; [done|]. split; [|done].
    apply select_cons_inv. eauto.
  - destruct (IH2 _ Hout') as (out2 & Hout2 & Hp2).
    destruct (IH1 _ Hout2) as (out1 & Hout1 & Hp1).
    exists out1. split; [done|]. by rewrite Hp1.
Qed.

Lemma select_seqZ {A} (pre l : list A) :
  select (pre ++ l) (seqZ (Py.len pre) (Py.len l)) = Ok l.
Proof.
  revert pre. induction l as [|x l IH]; intros pre.
  - done.
  - rewrite seqZ_cons by (unfold Py.len; simpl; lia).
    apply select_cons_inv. exists x, l. split; [|split; [|done]].
    + apply py_index_lookup; [unfold Py.len; lia|].
      unfold Py.len. rewrite Nat2Z.id. by apply list_lookup_middle.
    + specialize (IH (pre ++ [x])). rewrite <- app_assoc in IH. simpl in IH.
      rewrite <- IH. f_equal. f_equal.
      * rewrite len_app. unfold Py.len. simpl. lia.
      * unfold Py.len. simpl. lia.
Qed.

Lemma select_shuffle (examples : list Example) :
  ∃ out, select examples (shuffle (Py.range 0 (Py.len examples))) = Ok out ∧
    out ≡ₚ examples.
Proof.
  apply (select_perm _ _ (Py.range 0 (Py.len examples))).
  - apply shuffle_perm.
  - unfold Py.range. rewrite Z.sub_0_r. apply (select_seqZ [] examples).
Qed.

(** What [__init__] builds once [preprocess] has returned: the examples in
    the order they are batched, and the loader. *)
Lemma init_ok filename json_data bs o w2id evaluation σ σ1 printed processed :
  bs ≠ 0 →
  preprocess json_data w2id o σ = (σ1, printed, Ok processed) →
  ∃ examples batches,
    init filename json_data bs o w2id evaluation σ
    = (σ1, printed ++ [batches_created (Py.len batches) filename],
       Ok (mkDataLoader bs o evaluation (Py.len examples) batches)) ∧
    examples ≡ₚ processed ∧ (evaluation = true → examples = processed) ∧
    chunk examples bs = Ok batches.
Proof.
  intros Hbs Hpre. unfold init. rewrite Hpre.
  assert (∃ batches, ∀ l : list Example, chunk l bs = Ok (batches l))
    as [batches Hchunk].
  { unfold chunk, Py.range_step. destruct (Z.eqb_spec bs 0); [done|].
    destruct (0 <? bs); eauto. }
  destruct evaluation.
  - exists processed, (batches processed). cbn [mbind result_bind].
    rewrite Hchunk. by cbn [mbind result_bind].
  - destruct (select_shuffle processed) as (examples & Hsel & Hperm).
    exists examples, (batches examples). cbn [mbind result_bind].
    rewrite Hsel. cbn [mbind result_bind]. rewrite Hchunk.
    by cbn [mbind result_bind].
Qed.

(** C7: for batch_size > 0 the loader holds ceil(n / batch_size) batches;
    batch k is the examples k*batch_size, ..., in order, batch_size of
    them except in the last batch, which has n mod batch_size when that
    is not zero; len(loader) is the number of batches; the batches put
    end to end are the examples, none lost and none repeated (the
    preprocessed data itself in evaluation mode, its shuffle otherwise). *)
Theorem init_batches filename json_data (bs : Z) o w2id evaluation
    σ σ1 printed processed :
  0 < bs →
  preprocess json_data w2id o σ = (σ1, printed, Ok processed) →
  ∃ self examples,
    init filename json_data bs o w2id evaluation σ
    = (σ1, printed ++ [batches_created (len_ self) filename], Ok self) ∧
    examples ≡ₚ processed ∧ (evaluation = true → examples = processed) ∧
    let n := Py.len examples in
    len_ self = (n + bs - 1) / bs ∧
    (len_ self - 1) * bs < n ≤ len_ self * bs ∧
    num_examples self = n ∧
    (∀ k, 0 ≤ k < len_ self →
       ∃ batch, data self !! Z.to_nat k = Some batch ∧
         batch = Py.slice examples (k * bs) (k * bs + bs) ∧
         (k < len_ self - 1 → Py.len batch = bs) ∧
         (k = len_ self - 1 →
            Py.len batch = if n mod bs =? 0 then bs else n mod bs)) ∧
    concat (data self) = examples.
Proof.
  intros Hbs Hpre.
  destruct (init_ok filename json_data bs o w2id evaluation _ _ _ _
              ltac:(lia) Hpre) as (examples & batches & Hinit & Hp & He & Hc).
  exists (mkDataLoader bs o evaluation (Py.len examples) batches), examples.
  split; [exact Hinit|]. split; [done|]. split; [done|].
  unfold len_. cbn [data num_examples].
  assert (0 ≤ Py.len examples) as Hn by (unfold Py.len; lia).
  destruct (ceil_div_cases (Py.len examples) bs Hbs Hn) as [Hceil Hlast].
  pose proof (Z.div_pos (Py.len examples + bs - 1) bs ltac:(lia) Hbs) as Hc0.
  rewrite chunk_closed in Hc by done. injection Hc as <-.
  set (c := (Py.len examples + bs - 1) / bs) in *.
  rewrite len_fmap.
  replace (Py.len (seq 0 (Z.to_nat c))) with c
    by (unfold Py.len; rewrite length_seq; lia).
  split; [done|]. split; [done|]. split; [done|]. split.
  - intros k Hk. eexists. split.
    { rewrite list_lookup_fmap, lookup_seq_lt by lia. simpl. done. }
    assert (0 ≤ k * bs) by nia.
    rewrite slice_nonneg by lia. split.
    { f_equal; [f_equal; lia|f_equal; lia]. }
    unfold Py.len in *. rewrite length_take, length_drop.
    assert (Z.of_nat (Z.to_nat k * Z.to_nat bs) = k * bs) as Hkb
      by (rewrite Nat2Z.inj_mul, !Z2Nat.id by lia; done).
    split; intros Hk'.
    + assert (k * bs + bs ≤ Z.of_nat (length examples)) by nia. lia.
    + rewrite <- Hlast. subst k. lia.
  - pose proof (concat_chunks examples bs
      (Z.to_nat (Py.len examples - 0)) 0 Hbs ltac:(lia) ltac:(lia)) as Hcat.
    rewrite range_up_closed in Hcat by lia.
    change (drop (Z.to_nat 0) examples) with examples in Hcat.
    etrans; [|exact Hcat]. rewrite Z.sub_0_r. fold c. f_equal.
    rewrite <- list_fmap_compose. apply list_fmap_ext. intros ? k _. simpl.
    assert (0 ≤ Z.of_nat k * bs) by nia.
    rewrite slice_nonneg by lia. f_equal; [f_equal; lia|f_equal; lia].
Qed.

Lemma init_data_nonempty filename json_data bs o w2id evaluation
    σ σ1 printed self :
  init filename json_data bs o w2id evaluation σ = (σ1, printed, Ok self) →
  Forall (λ batch, batch ≠ []) (data self).
Proof.
  unfold init.
  destruct (preprocess json_data w2id o σ) as [[σ' printed'] [processed|e]];
    [|intros [= _ _ ?]; done].
  cbn [mbind result_bind].
  destruct (if evaluation then Ok processed else _) as [examples|e];
    [|intros [= _ _ ?]; done].
  cbn [mbind result_bind].
  destruct (chunk examples bs) as [batches|e] eqn:Hc;
    [|intros [= _ _ ?]; done].
  cbn [mbind result_bind]. intros [= _ _ <-]. simpl.
  by eapply chunk_nonempty.
Qed.

(** C8: __getitem__ raises TypeError for a key that is not an int,
    IndexError exactly for an int key below 0 or at least the number of
    batches (so a negative key never counts from the end); for every other
    key it returns the 10-tuple or fails on a number that is not a 64-bit
    integer, and it returns the 10-tuple when the padding id, the
    unknown-word id where word dropout is on, and every number of the
    batches are 64-bit integers. *)
Theorem getitem_errors filename json_data bs o w2id evaluation σ σ1 printed
    self (key : Key) (g : rng) :
  init filename json_data bs o w2id evaluation σ = (σ1, printed, Ok self) →
  (key_int key = None ↔ key = KOther) ∧
  match key_int key with
  | None => getitem self key g = (g, Raise TypeError)
  | Some k =>
      ((getitem self key g).2 = Raise IndexError ↔ k < 0 ∨ len_ self ≤ k) ∧
      (0 ≤ k < len_ self →
       ((∃ b : Batch, (getitem self key g).2 = Ok b) ∨
        (getitem self key g).2 = Raise RuntimeError) ∧
       (Forall (batch_fits (eval self)) (data self) →
        ∃ b : Batch, (getitem self key g).2 = Ok b))
  end.
Proof.
  intros Hinit. split.
  { destruct key; simpl; split; congruence. }
  destruct (key_int key) as [k|] eqn:Hkey.
  - destruct (decide (k < 0 ∨ len_ self ≤ k)) as [Hout|Hin].
    + split; [|unfold len_ in *; lia].
      split; [done|]. intros _. unfold getitem. rewrite Hkey.
      rewrite bool_decide_eq_true_2; [done|]. unfold len_ in Hout. lia.
    + assert (0 ≤ k < len_ self) as Hk by lia.
      destruct (lookup_lt_is_Some_2 (data self) (Z.to_nat k)) as [batch Hb].
      { unfold len_, Py.len in Hk. lia. }
      assert (batch ≠ []) as Hne.
      { pose proof (init_data_nonempty _ _ _ _ _ _ _ _ _ _ Hinit) as Hall.
        rewrite Forall_forall in Hall. apply Hall.
        by eapply list_elem_of_lookup_2. }
      pose proof (getitem_valid_outcome self key k batch g Hkey ltac:(lia)
                    Hb Hne) as Hout.
      split.
      * split; [|done]. intros Herr. rewrite Herr in Hout.
        by destruct Hout as [[b ?]|?].
      * intros _. split; [exact Hout|]. intros Hfits.
        rewrite Forall_forall in Hfits.
        rewrite (getitem_ok self key k batch g Hkey ltac:(lia) Hb Hne).
        { cbn [snd]. eauto. }
        apply Hfits. by eapply list_elem_of_lookup_2.
  - unfold getitem. by rewrite Hkey.
Qed.

Lemma sorted_rows_len batch :
  Py.len <$> (ex_tokens <$> (row_fields <$> sorted row_lt true (rows_of batch)))
  = row_len <$> sorted row_lt true (rows_of batch).
Proof.
  rewrite <- !list_fmap_compose. apply Forall_fmap_ext, Forall_forall.
  intros r Hr. rewrite sorted_perm in Hr.
  apply rows_of_elem in Hr as (_ & _ & Hlen). simpl. by rewrite Hlen.
Qed.

(** C2: sort_all, as __getitem__ calls it, returns the eight fields with
    their rows reordered together, longest token sequence first, and
    orig_idx, the original index of each row, a rearrangement of
    0..len(batch)-1; __getitem__ returns these columns (padded) and this
    orig_idx when every number that goes into a tensor is a 64-bit
    integer; and sorting by orig_idx, as predict does to unsort, puts
    whatever was computed row by row back in the original order of the
    batch, ties in length included. *)
Theorem sort_all_unsort (batch : list Example) :
  batch ≠ [] →
  ∃ (sorted_batch : Fields) (orig_idx : list Z),
    sort_all (columns batch) (Py.len <$> f_tokens (columns batch))
    = Ok (sorted_batch, orig_idx) ∧
    sorted_batch = columns (zip_fields sorted_batch) ∧
    Py.len orig_idx = Py.len batch ∧
    (∀ j i, orig_idx !! j = Some i →
       0 ≤ i ∧ zip_fields sorted_batch !! j = batch !! Z.to_nat i) ∧
    StronglySorted (λ a b : Z, b ≤ a) (Py.len <$> f_tokens sorted_batch) ∧
    orig_idx ≡ₚ Py.range 0 (Py.len batch) ∧
    (∀ (A : Type) (lt : A → A → bool) (f : Example → A),
       unsort lt orig_idx (f <$> zip_fields sorted_batch) = f <$> batch) ∧
    (∀ self key k g,
       key_int key = Some k → 0 ≤ k →
       data self !! Z.to_nat k = Some batch →
       batch_fits (eval self) batch →
       ∃ b, (getitem self key g).2 = Ok b ∧
         b_orig_idx b = orig_idx ∧
         b_rels b = f_relation sorted_batch ∧
         b_pos b = pad_rows (f_pos sorted_batch) ∧
         b_ner b = pad_rows (f_ner sorted_batch) ∧
         b_deprel b = pad_rows (f_deprel sorted_batch) ∧
         b_subj_positions b = pad_rows (f_subj_positions sorted_batch) ∧
         b_obj_positions b = pad_rows (f_obj_positions sorted_batch) ∧
         b_src_pos b = pad_rows (f_inst_position sorted_batch) ∧
         (eval self = true →
            b_words b = pad_rows (f_tokens sorted_batch))).
Proof.
  intros Hne. set (rs := sorted row_lt true (rows_of batch)).
  assert (rs ≡ₚ rows_of batch) as Hp by apply sorted_perm.
  exists (columns (row_fields <$> rs)), (row_idx <$> rs).
  rewrite zip_fields_columns.
  split; [by apply sort_all_ok|]. split; [done|]. split.
  { rewrite len_fmap. unfold Py.len. rewrite Hp. unfold rows_of.
    by rewrite length_imap. }
  split.
  { intros j i Hj. rewrite list_lookup_fmap in Hj.
    destruct (rs !! j) as [r|] eqn:Hr; [|done]. injection Hj as <-.
    assert (r ∈ rows_of batch) as Hin.
    { rewrite <- Hp. by eapply list_elem_of_lookup_2. }
    apply rows_of_elem in Hin as (H0 & Hb & _). split; [done|].
    by rewrite list_lookup_fmap, Hr, Hb. }
  split.
  { cbn [columns f_tokens]. unfold rs. rewrite sorted_rows_len.
    eapply StronglySorted_fmap; [|apply sorted_rows_sorted].
    intros a b. unfold flip, row_before. lia. }
  split; [by rewrite Hp, rows_of_idx|].
  split; [intros A lt f; apply unsort_sorted_rows|].
  intros self key k g Hkey Hk Hb Hfits.
  rewrite (getitem_ok self key k batch g Hkey Hk Hb Hne Hfits). fold rs.
  eexists. split; [done|]. cbn.
  repeat (split; [done|]). intros ->. done.
Qed.

Lemma word_dropout_all_lookup sents dropout g j sent :
  sents !! j = Some sent →
  ∃ gj, (word_dropout_all sents dropout g).1 !! j
        = Some (word_dropout sent dropout gj).1.
Proof.
  revert g j. induction sents as [|s sents IH]; intros g j Hj; [done|].
  simpl. destruct (word_dropout s dropout g) as [w g1] eqn:Hw.
  specialize (IH g1).
  destruct (word_dropout_all sents dropout g1) as [ws g2].
  destruct j as [|j]; simpl in *.
  - injection Hj as <-. exists g. by rewrite Hw.
  - by apply IH.
Qed.

(** C6: word_dropout returns a sequence of the same length in which each
    id is the original one or UNK_ID and an UNK_ID stays as it is; with
    dropout 0 the sequence is unchanged.  In __getitem__ the token columns
    of the sorted batch go into [words] untouched when [eval] is set (and
    no random number is drawn); otherwise each of them goes through
    word_dropout, and nothing else is done to them before padding; the
    batch comes back when every number that goes into a tensor is a
    64-bit integer. *)
Theorem word_dropout_spec (tokens : list Z) (dropout : Q) (g : rng) :
  let out := (word_dropout tokens dropout g).1 in
  length out = length tokens ∧
  (∀ i x, tokens !! i = Some x →
     ∃ y, out !! i = Some y ∧ (y = x ∨ y = UNK_ID) ∧ (x = UNK_ID → y = x)) ∧
  ((dropout == 0)%Q → out = tokens) ∧
  (∀ self key k batch,
     key_int key = Some k → 0 ≤ k →
     data self !! Z.to_nat k = Some batch → batch ≠ [] →
     batch_fits (eval self) batch →
     let sents :=
       ex_tokens <$> (row_fields <$> sorted row_lt true (rows_of batch)) in
     ∃ (b : Batch) (g' : rng) (words : list (list Z)),
       getitem self key g = (g', Ok b) ∧ b_words b = pad_rows words ∧
       if eval self then words = sents ∧ g' = g
       else (words, g')
            = word_dropout_all sents (opt_word_dropout (opt self)) g ∧
            ∀ j sent, sents !! j = Some sent →
              ∃ gj, words !! j
                    = Some (word_dropout sent
                              (opt_word_dropout (opt self)) gj).1).
Proof.
  intros out. split; [apply word_dropout_length|].
  split.
  { intros i x Hx.
    destruct (word_dropout_lookup tokens dropout g i x Hx)
      as (y & Hy & Hor & Hunk).
    exists y. split; [done|]. split; [done|]. intros ->. by apply Hunk. }
  split; [apply word_dropout_zero|].
  intros self key k batch Hkey Hk Hb Hne Hfits sents.
  rewrite (getitem_ok self key k batch g Hkey Hk Hb Hne Hfits). fold sents.
  destruct (eval self).
  - exists (batch_of (sorted row_lt true (rows_of batch)) sents), g, sents.
    done.
  - destruct (word_dropout_all sents (opt_word_dropout (opt self)) g)
      as [words g'] eqn:Hw.
    exists (batch_of (sorted row_lt true (rows_of batch)) words), g', words.
    split; [done|]. split; [done|]. split; [done|].
    intros j sent Hj.
    destruct (word_dropout_all_lookup sents (opt_word_dropout (opt self))
                g j sent Hj) as [gj Hgj].
    exists gj. by rewrite Hw in Hgj.
Qed.

(** ** preprocess: anonymisation *)

Lemma slice_assign_span {A} (l : list A) (i j : Z) (x : A) :
  0 ≤ i ≤ j ∧ j < Py.len l →
  Py.slice_assign l i (j + 1) (Py.repeat x (j - i + 1))
  = take (Z.to_nat i) l ++ replicate (Z.to_nat (j - i + 1)) x
      ++ drop (Z.to_nat (j + 1)) l.
Proof.
  intros H. unfold Py.len in H. unfold Py.slice_assign, Py.repeat.
  rewrite !clamp_in_range by lia. by rewrite Z.max_r by lia.
Qed.

Lemma slice_assign_span_len {A} (l : list A) (i j : Z) (x : A) :
  0 ≤ i ≤ j ∧ j < Py.len l →
  Py.len (Py.slice_assign l i (j + 1) (Py.repeat x (j - i + 1))) = Py.len l.
Proof.
  intros H. rewrite slice_assign_span by done. unfold Py.len in *.
  rewrite !length_app, length_take, length_replicate, length_drop. lia.
Qed.

Lemma slice_assign_span_lookup {A} (l : list A) (i j : Z) (x : A) k y :
  0 ≤ i ≤ j ∧ j < Py.len l →
  l !! k = Some y →
  Py.slice_assign l i (j + 1) (Py.repeat x (j - i + 1)) !! k
  = Some (if in_span i j (Z.of_nat k) then x else y).
Proof.
  intros H Hy. rewrite slice_assign_span by done. unfold Py.len in H.
  apply lookup_lt_Some in Hy as Hk. unfold in_span.
  destruct (Z.leb_spec i (Z.of_nat k)) as [Hik|Hik]; simpl.
  - rewrite lookup_app_r by (rewrite length_take; lia).
    rewrite length_take.
    destruct (Z.leb_spec (Z.of_nat k) j) as [Hkj|Hkj].
    + rewrite lookup_app_l by (rewrite length_replicate; lia).
      apply lookup_replicate_2. lia.
    + rewrite lookup_app_r by (rewrite length_replicate; lia).
      rewrite length_replicate, lookup_drop, <- Hy. f_equal. lia.
  - rewrite lookup_app_l by (rewrite length_take; lia).
    rewrite lookup_take_lt by lia. done.
Qed.

Lemma anonymize_eq o d σ :
  anonymize o d σ
  = if lower o
    then (σ, Fresh (anonymized_tokens o d (σ !!! token d)))
    else (<[token d := anonymized_tokens o d (σ !!! token d)]> σ,
          Alias (token d)).
Proof.
  unfold anonymize, anonymized_tokens. destruct (lower o); simpl; [done|].
  by rewrite lookup_total_insert_eq, insert_insert_eq.
Qed.

Lemma anonymize_read o d σ :
  read_tokens (anonymize o d σ).1 (anonymize o d σ).2
  = anonymized_tokens o d (σ !!! token d).
Proof.
  rewrite anonymize_eq. destruct (lower o); simpl; [done|].
  by rewrite lookup_total_insert_eq.
Qed.

Lemma anonymized_tokens_lookup o d tokens i tok :
  spans_valid d (Py.len tokens) →
  tokens !! i = Some tok →
  Py.len (anonymized_tokens o d tokens) = Py.len tokens ∧
  anonymized_tokens o d tokens !! i
  = Some (if in_span (obj_start d) (obj_end d) (Z.of_nat i)
          then "OBJ-" +:+ obj_type d
          else if in_span (subj_start d) (subj_end d) (Z.of_nat i)
          then "SUBJ-" +:+ subj_type d
          else if lower o then str_lower tok else tok).
Proof.
  intros [Hs Ho] Htok. unfold anonymized_tokens.
  set (tokens0 := if lower o then str_lower <$> tokens else tokens).
  assert (Py.len tokens0 = Py.len tokens) as Hlen0.
  { unfold tokens0. destruct (lower o); [apply len_fmap|done]. }
  assert (tokens0 !! i = Some (if lower o then str_lower tok else tok))
    as Htok0.
  { unfold tokens0. destruct (lower o); [|done].
    by rewrite list_lookup_fmap, Htok. }
  rewrite <- Hlen0 in Hs, Ho.
  pose proof (slice_assign_span_len tokens0 _ _ ("SUBJ-" +:+ subj_type d) Hs)
    as Hlen1.
  rewrite <- Hlen1 in Ho. split.
  - rewrite slice_assign_span_len by done. by rewrite Hlen1.
  - erewrite slice_assign_span_lookup; [done|done|].
    by apply slice_assign_span_lookup.
Qed.

(** C4, amended: when both spans lie within the sentence, the anonymised
    token sequence has the length of the original; every index of the
    object span holds 'OBJ-'+obj_type, every index of the subject span
    outside the object span holds 'SUBJ-'+subj_type, and every other index
    holds the original token, lowercased when opt['lower'] is set. *)
Theorem anonymize_spans (o : Opt) (d : Datum) (σ : store) :
  let tokens := σ !!! token d in
  let out := read_tokens (anonymize o d σ).1 (anonymize o d σ).2 in
  spans_valid d (Py.len tokens) →
  Py.len out = Py.len tokens ∧
  ∀ (i : nat) (tok : string), tokens !! i = Some tok →
    out !! i
    = Some (if in_span (obj_start d) (obj_end d) (Z.of_nat i)
            then "OBJ-" +:+ obj_type d
            else if in_span (subj_start d) (subj_end d) (Z.of_nat i)
            then "SUBJ-" +:+ subj_type d
            else if lower o then str_lower tok else tok).
Proof.
  intros tokens out Hv. unfold out. rewrite anonymize_read. fold tokens.
  split.
  - destruct tokens as [|tok tokens'] eqn:Ht.
    + destruct Hv as [[? ?] _]. unfold Py.len in *. simpl in *. lia.
    + rewrite <- Ht in *.
      assert (tokens !! 0%nat = Some tok) as H0 by by rewrite Ht.
      by destruct (anonymized_tokens_lookup o d tokens 0 tok Hv H0).
  - intros i tok Htok.
    by destruct (anonymized_tokens_lookup o d tokens i tok Hv Htok).
Qed.

(** ** preprocess: what it does to the caller's records *)

Lemma preprocess_record_store w2id o d σ :
  (preprocess_record w2id o d σ).1.1 = (anonymize o d σ).1.
Proof.
  unfold preprocess_record. destruct (anonymize o d σ) as [σ1 t].
  by repeat destruct (relativate_word_positions _).
Qed.

Lemma preprocess_loop_store w2id o data σ printed processed σ' printed' r :
  preprocess_loop w2id o data σ printed processed = (σ', printed', r) →
  (lower o = true → σ' = σ) ∧
  (lower o = false → ∀ out, r = Ok out →
     σ' = anonymize_all o data σ ∧
     length out = (length processed + length data)%nat).
Proof.
  revert σ printed processed.
  induction data as [|d data IH]; intros σ printed processed; simpl.
  - intros [= <- _ <-]. split; [done|]. intros _ out [= <-].
    split; [done|]. lia.
  - pose proof (preprocess_record_store w2id o d σ) as Hst.
    rewrite anonymize_eq in Hst.
    destruct (preprocess_record w2id o d σ) as [[σ1 out1] [ex|e]];
      simpl in Hst.
    + intros Hloop. apply IH in Hloop as [Ht Hf]. split.
      * intros Hl. rewrite Hl in Hst. simpl in Hst. rewrite Ht by done.
        done.
      * intros Hl out ->. rewrite Hl in Hst. simpl in Hst.
        destruct (Hf Hl out eq_refl) as [-> Hlen]. rewrite Hst.
        split; [done|]. rewrite length_app in Hlen. simpl in *. lia.
    + intros [= <- _ <-]. split; [|done].
      intros Hl. rewrite Hl in Hst. done.
Qed.

Lemma anonymize_all_distinct o data σ :
  NoDup (token <$> data) →
  (∀ d, d ∈ data →
     anonymize_all o data σ !! token d
     = Some (anonymized_tokens o d (σ !!! token d))) ∧
  (∀ l, l ∉ token <$> data → anonymize_all o data σ !! l = σ !! l).
Proof.
  revert σ. induction data as [|d data IH]; intros σ Hnd.
  - split; [by intros d Hd; inv Hd|done].
  - rewrite fmap_cons in Hnd. apply NoDup_cons in Hnd as [Hd Hnd].
    unfold anonymize_all in *. simpl.
    set (σ1 := <[token d := _]> σ).
    destruct (IH σ1 Hnd) as [IH1 IH2]. split.
    + intros d' Hd'. apply elem_of_cons in Hd' as [->|Hd'].
      * rewrite IH2 by done. apply lookup_insert_eq.
      * rewrite IH1 by done. unfold σ1.
        rewrite lookup_total_insert_ne; [done|].
        intros Heq. apply Hd. rewrite Heq. by apply list_elem_of_fmap_2.
    + intros l Hl. apply not_elem_of_cons in Hl as [Hl1 Hl2].
      rewrite IH2 by done. by apply lookup_insert_ne.
Qed.

(** C9: with opt['lower'] false the two slice assignments of preprocess
    write into the record's own 'token' list, so after preprocess each
    input record holds its anonymised tokens; with opt['lower'] true the
    token list is rebuilt first and the store of the caller's records is
    left as it was. *)
Theorem preprocess_mutates_input (data : list Datum)
    (vocab_word2id : gmap string Z) (o : Opt) (σ σ' : store)
    (printed : list string) (r : result (list Example)) :
  preprocess data vocab_word2id o σ = (σ', printed, r) →
  (lower o = true →
     σ' = σ ∧
     ∀ d τ, ∃ v, anonymize o d τ = (τ, Fresh v)) ∧
  (lower o = false →
     (∀ d τ, anonymize o d τ
             = (<[token d := anonymized_tokens o d (τ !!! token d)]> τ,
                Alias (token d))) ∧
     ∀ processed, r = Ok processed →
       σ' = anonymize_all o data σ ∧
       (NoDup (token <$> data) →
          (∀ d, d ∈ data →
             σ' !! token d = Some (anonymized_tokens o d (σ !!! token d))) ∧
          (∀ l, l ∉ token <$> data → σ' !! l = σ !! l))).
Proof.
  intros Hpre. unfold preprocess in Hpre.
  apply preprocess_loop_store in Hpre as [Ht Hf]. split.
  - intros Hl. split; [by apply Ht|].
    intros d τ. rewrite anonymize_eq, Hl. eauto.
  - intros Hl. split.
    + intros d τ. by rewrite anonymize_eq, Hl.
    + intros processed ->. destruct (Hf Hl processed eq_refl) as [-> _].
      split; [done|]. apply anonymize_all_distinct.
Qed.
(** * Further properties of the loader *)

(** ** bin_positions *)

Lemma floor_div_neg x width :
  0 < width → x < 0 → x / width = - ((Z.abs x + width - 1) / width).
Proof.
  intros Hw Hx.
  destruct (ceil_div_cases (Z.abs x) width Hw ltac:(lia)) as [Hc _].
  set (c := (Z.abs x + width - 1) / width) in *.
  symmetry. apply (Z.div_unique _ _ _ (x + c * width)); lia.
Qed.

Lemma wrap64_fits z : fits_int64 z → wrap64 z = z.
Proof.
  unfold fits_int64, wrap64, int64_min, int64_max. intros Hz.
  rewrite Z.mod_small; lia.
Qed.

(** X1: for a width of at least 1 and positions x with |x| + width - 1
    within the 64-bit integers, where no sum wraps around, bin_positions
    maps every position x to sgn(x) * ceil(|x| / width): zero stays zero,
    the sign is kept, the bins are symmetric around zero, the list keeps
    its length, and width 1 changes nothing. *)
Theorem bin_positions_spec (positions_list : list Z) (width : Z) :
  0 < width ≤ int64_max →
  Forall (λ x, Z.abs x + width - 1 ≤ int64_max) positions_list →
  bin_positions positions_list width
  = (λ x, Z.sgn x * ((Z.abs x + width - 1) / width)) <$> positions_list ∧
  length (bin_positions positions_list width) = length positions_list ∧
  (∀ x, let k := (Z.abs x + width - 1) / width in
        (k - 1) * width < Z.abs x ≤ k * width) ∧
  bin_positions ((λ x, - x) <$> positions_list) width
  = (λ x, - x) <$> bin_positions positions_list width ∧
  bin_positions positions_list 1 = positions_list.
Proof.
  intros [Hw Hwmax] Hsmall.
  assert (∀ w l, 0 < w →
            Forall (λ x, Z.abs x + w - 1 ≤ int64_max) l →
            bin_positions l w
            = (λ x, Z.sgn x * ((Z.abs x + w - 1) / w)) <$> l) as Heq.
  { intros w l Hw' Hl. unfold bin_positions. rewrite <- list_fmap_compose.
    apply Forall_fmap_ext. eapply Forall_impl; [exact Hl|].
    intros x Hx. cbv beta in Hx. simpl.
    assert (0 ≤ (Z.abs x + w - 1) / w ≤ Z.abs x + w - 1) as Hq.
    { split; [apply Z.div_pos; lia|].
      apply Z.div_le_upper_bound; [lia|]. nia. }
    destruct (Z.ltb_spec 0 x) as [Hpos|Hnp].
    - replace (x + (w - 1)) with (Z.abs x + w - 1) by lia.
      rewrite (wrap64_fits (Z.abs x + w - 1))
        by (unfold fits_int64, int64_min, int64_max in *; lia).
      rewrite wrap64_fits
        by (unfold fits_int64, int64_min, int64_max in *; lia).
      destruct (Z.ltb_spec ((Z.abs x + w - 1) / w) 0); [lia|].
      rewrite Z.sgn_pos by lia. lia.
    - destruct (Z.ltb_spec x 0) as [Hneg|Hz].
      + rewrite floor_div_neg, Z.sgn_neg by lia.
        rewrite wrap64_fits
          by (unfold fits_int64, int64_min, int64_max in *; lia).
        lia.
      + replace x with 0 by lia. done. }
  split; [by apply Heq|]. split.
  { rewrite Heq by done. apply length_fmap. }
  split.
  { intros x k. apply (ceil_div_cases (Z.abs x) width Hw). lia. }
  split.
  - rewrite (Heq width positions_list) by done.
    rewrite Heq; [|done|].
    + rewrite <- !list_fmap_compose.
      apply list_fmap_ext. intros _ x _. simpl.
      rewrite Z.sgn_opp, Z.abs_opp. lia.
    + apply Forall_fmap. eapply Forall_impl; [exact Hsmall|].
      intros x Hx. simpl. by rewrite Z.abs_opp.
  - rewrite Heq; [|lia|].
    + rewrite <- (list_fmap_id positions_list) at 2.
      apply list_fmap_ext. intros _ x _. simpl.
      replace (Z.abs x + 1 - 1) with (Z.abs x) by lia. rewrite Z.div_1_r.
      lia.
    + eapply Forall_impl; [exact Hsmall|]. intros x Hx. cbv beta in *. lia.
Qed.

(** Beyond that range the sum wraps around, and what the first assignment
    leaves below zero is divided again by the second. *)
Example bin_positions_wraps :
  bin_positions [int64_max; -5] 2 = [- 2 ^ 61; -3].
Proof. reflexivity. Qed.

(** On the input of the example in the docstring of bin_positions, with
    window 3, the function returns ceil(|x|/3) with the sign of x, not the
    list the docstring shows. *)
Example bin_positions_docstring_input :
  bin_positions [-4; -3; -3; -2; -2; -1; -1; 0; 0; 1; 1; 2; 2; 3; 3; 4] 3
  = [-2; -1; -1; -1; -1; -1; -1; 0; 0; 1; 1; 1; 1; 1; 1; 2].
Proof. reflexivity. Qed.

(** ** relativate_word_positions away from get_positions *)

(** X2: on a list without a zero, of positions x with |x|+1 below 2^29,
    the loop never reaches its [break]: every position comes out as
    -ceil(log2(|x|+1)), the positive ones included, so positions after a
    span that holds no token lose their sign. *)
Theorem relativate_word_positions_no_zero (positions_list : list Z) :
  Forall (λ x, x ≠ 0) positions_list →
  Forall (λ x, Z.abs x + 1 < 2 ^ 29) positions_list →
  (relativate_word_positions positions_list).1
  = (λ x, - ceil_log2 (Z.abs x + 1)) <$> positions_list ∧
  Forall (λ y, y < 0) (relativate_word_positions positions_list).1.
Proof.
  intros Hnz _.
  assert ((relativate_word_positions positions_list).1
          = (λ x, - ceil_log2 (Z.abs x + 1)) <$> positions_list) as Heq.
  { rewrite relativate_word_positions_fst.
    rewrite <- (app_nil_r positions_list) at 1.
    rewrite (negate_until_zero_split (λ x, ceil_log2 (Z.abs x + 1)));
      [by rewrite app_nil_r| |by left].
    eapply Forall_impl; [exact Hnz|]. intros x Hx. cbv beta.
    by rewrite ceil_log2_zero_iff. }
  split; [done|]. rewrite Heq. apply Forall_fmap.
  eapply Forall_impl; [exact Hnz|]. intros x Hx. unfold compose.
  cbv beta in *.
  pose proof (ceil_log2_nonneg (Z.abs x + 1)).
  destruct (ceil_log2_zero_iff x) as [Hz _].
  destruct (Z.eq_dec (ceil_log2 (Z.abs x + 1)) 0) as [H0|H0]; [|lia].
  by apply Hz in H0.
Qed.

(** ** word_dropout at the ends of the range, and its use of the generator *)

(** X3: with a dropout of 1 or more every token becomes UNK_ID; with a
    dropout of 0 or less no token changes. *)
Theorem word_dropout_extremes (tokens : list Z) (dropout : Q) (g : rng) :
  ((1 <= dropout)%Q →
     (word_dropout tokens dropout g).1 = replicate (length tokens) UNK_ID) ∧
  ((dropout <= 0)%Q → (word_dropout tokens dropout g).1 = tokens).
Proof.
  split; intros Hd; revert g;
    (induction tokens as [|t tokens IH]; intros g; simpl; [done|]);
    case_bool_decide as Ht.
  - pose proof (random_range g) as [_ Hr].
    destruct (random g) as [r g1]. specialize (IH g1).
    destruct (word_dropout tokens dropout g1) as [ys g2]. simpl in *.
    destruct (Qlt_le_dec r dropout) as [_|Hle].
    + by rewrite IH.
    + exfalso. apply (Qlt_not_le r 1 Hr). by eapply Qle_trans.
  - specialize (IH g). destruct (word_dropout tokens dropout g) as [ys g2].
    simpl in *. rewrite IH. f_equal.
    destruct (Z.eq_dec t UNK_ID); [done|by destruct Ht].
  - pose proof (random_range g) as [Hr _].
    destruct (random g) as [r g1]. specialize (IH g1).
    destruct (word_dropout tokens dropout g1) as [ys g2]. simpl in *.
    destruct (Qlt_le_dec r dropout) as [Hlt|_].
    + exfalso. apply (Qlt_not_le r dropout Hlt). by eapply Qle_trans.
    + by rewrite IH.
  - specialize (IH g). destruct (word_dropout tokens dropout g) as [ys g2].
    simpl in *. by rewrite IH.
Qed.

(** X4: word_dropout draws one number for each token that is not UNK_ID
    and none for an UNK_ID, whatever the dropout and the outcome. *)
Theorem word_dropout_draws (tokens : list Z) (dropout : Q) (g : rng) :
  (word_dropout tokens dropout g).2
  = advance (length (filter (λ x, x ≠ UNK_ID) tokens)) g.
Proof.
  revert g. induction tokens as [|t tokens IH]; intros g; simpl; [done|].
  rewrite filter_cons. case_bool_decide as Ht.
  - destruct (decide (t ≠ UNK_ID)); [|done].
    cbn [length]. unfold advance in *. rewrite Nat.iter_succ_r.
    destruct (random g) as [r g1]. specialize (IH g1).
    destruct (word_dropout tokens dropout g1) as [ys g2]. simpl in *.
    by rewrite IH.
  - destruct (decide (t ≠ UNK_ID)); [done|].
    specialize (IH g). destruct (word_dropout tokens dropout g) as [ys g2].
    done.
Qed.


(** ** get_long_tensor: every outcome *)

(** X5: get_long_tensor raises ValueError on an empty list; on a
    non-empty one it raises RuntimeError for a negative batch_size, for a
    PAD_ID that is not a 64-bit integer, and for a cell that is not one
    among the first batch_size + 1 sequences (the conversion of a sequence
    comes before the row is looked up); when those all fit it raises
    IndexError if there are more sequences than batch_size, and otherwise
    returns the padded sequences followed by one row of PAD_ID for each row
    that batch_size counts beyond them. *)
Theorem get_long_tensor_outcome (tokens_list : list (list Z))
    (batch_size : Z) :
  let head := take (Z.to_nat batch_size + 1) tokens_list in
  get_long_tensor [] batch_size = Raise ValueError ∧
  (tokens_list ≠ [] →
   (batch_size < 0 →
      get_long_tensor tokens_list batch_size = Raise RuntimeError) ∧
   (0 ≤ batch_size → ¬ fits_int64 PAD_ID →
      get_long_tensor tokens_list batch_size = Raise RuntimeError) ∧
   (0 ≤ batch_size → ¬ Forall (Forall fits_int64) head →
      get_long_tensor tokens_list batch_size = Raise RuntimeError) ∧
   (0 ≤ batch_size < Py.len tokens_list →
      fits_int64 PAD_ID → Forall (Forall fits_int64) head →
      get_long_tensor tokens_list batch_size = Raise IndexError) ∧
   (Py.len tokens_list ≤ batch_size →
      fits_int64 PAD_ID → Forall (Forall fits_int64) head →
      head = tokens_list ∧
      ∃ token_len,
        py_max (Py.len <$> tokens_list) = Ok token_len ∧
        get_long_tensor tokens_list batch_size
        = Ok ((pad_to token_len <$> tokens_list)
                ++ Py.repeat (Py.repeat PAD_ID token_len)
                     (batch_size - Py.len tokens_list)))).
Proof.
  intros head. split; [done|]. intros Hne.
  destruct (py_max_spec (Py.len <$> tokens_list)) as (L & HL & Hle & _).
  { by destruct tokens_list. }
  assert (∀ s : list Z,
            s ++ drop (length s) (Py.repeat PAD_ID L) = pad_to L s) as Hpad.
  { intros s. unfold pad_to, Py.repeat. rewrite drop_replicate.
    do 2 f_equal. unfold Py.len. lia. }
  assert (0 ≤ batch_size → fits_int64 PAD_ID →
          get_long_tensor tokens_list batch_size
          = if decide (Forall (Forall fits_int64) head)
            then if decide (length tokens_list ≤ Z.to_nat batch_size)%nat
                 then Ok (((λ s, s ++ drop (length s) (Py.repeat PAD_ID L))
                             <$> tokens_list)
                            ++ replicate
                                 (Z.to_nat batch_size - length tokens_list)
                                 (Py.repeat PAD_ID L))
                 else Raise IndexError
            else Raise RuntimeError) as Hrun.
  { intros Hbs Hfit. unfold get_long_tensor. rewrite HL.
    cbn [mbind result_bind].
    destruct (Z.ltb_spec batch_size 0); [lia|].
    rewrite decide_True by done. unfold Py.repeat at 1.
    pose proof (fill_rows_outcome (Py.repeat PAD_ID L) tokens_list []
                  (Z.to_nat batch_size)) as Hfill.
    simpl in Hfill. rewrite Hfill. unfold head.
    by replace (Z.to_nat batch_size + 1)%nat with (S (Z.to_nat batch_size))
      by lia. }
  split; [|split; [|split; [|split]]].
  - intros Hbs. unfold get_long_tensor. rewrite HL. cbn [mbind result_bind].
    destruct (Z.ltb_spec batch_size 0); [done|lia].
  - intros Hbs Hfit. unfold get_long_tensor. rewrite HL.
    cbn [mbind result_bind].
    destruct (Z.ltb_spec batch_size 0); [lia|]. by rewrite decide_False.
  - intros Hbs Hhead.
    destruct (decide (fits_int64 PAD_ID)) as [Hfit|Hfit].
    + rewrite Hrun by done. by rewrite decide_False.
    + unfold get_long_tensor. rewrite HL. cbn [mbind result_bind].
      destruct (Z.ltb_spec batch_size 0); [lia|]. by rewrite decide_False.
  - intros Hbs Hfit Hhead. rewrite Hrun by (done || lia).
    rewrite decide_True by done. apply decide_False.
    unfold Py.len in Hbs. lia.
  - intros Hbs Hfit Hhead.
    assert (0 ≤ batch_size) as Hbs0 by (unfold Py.len in Hbs; lia).
    split.
    { unfold head. apply take_ge. unfold Py.len in Hbs. lia. }
    exists L. split; [done|]. rewrite Hrun by done.
    rewrite decide_True by done.
    rewrite decide_True by (unfold Py.len in Hbs; lia).
    f_equal. f_equal.
    + apply list_fmap_ext. intros _ s _. apply Hpad.
    + unfold Py.repeat at 2. f_equal. unfold Py.len. lia.
Qed.


(** ** preprocess: what one record becomes *)

Lemma relativate_word_positions_silent l :
  (relativate_word_positions l).2 = [].
Proof.
  unfold relativate_word_positions. cbn [snd].
  rewrite bool_decide_eq_false_2; [done|].
  pose proof (relativate_word_positions_fst l) as Hfst.
  unfold relativate_word_positions in Hfst. cbn [fst] in Hfst.
  unfold Py.len. rewrite Hfst, negate_until_zero_length, length_fmap. auto.
Qed.

Lemma preprocess_record_eq w2id o d σ :
  preprocess_record w2id o d σ
  = let tokens :=
      map_to_ids (anonymized_tokens o d (σ !!! token d)) w2id in
    ((anonymize o d σ).1, [],
     relation ← or_raise KeyError (LABEL_TO_ID !! relation d);
     Ok (mkExample tokens (map_to_ids (stanford_pos d) POS_TO_ID)
           (map_to_ids (stanford_ner d) NER_TO_ID)
           (map_to_ids (stanford_deprel d) DEPREL_TO_ID)
           (relativate_word_positions
              (get_positions (subj_start d) (subj_end d) (Py.len tokens))).1
           (relativate_word_positions
              (get_positions (obj_start d) (obj_end d) (Py.len tokens))).1
           (inst_position_of tokens) relation)).
Proof.
  unfold preprocess_record. rewrite <- anonymize_read.
  destruct (anonymize o d σ) as [σ1 t]. cbn [fst snd].
  set (tokens := map_to_ids (read_tokens σ1 t) w2id).
  pose proof (relativate_word_positions_silent
                (get_positions (subj_start d) (subj_end d) (Py.len tokens)))
    as H1.
  pose proof (relativate_word_positions_silent
                (get_positions (obj_start d) (obj_end d) (Py.len tokens)))
    as H2.
  destruct (relativate_word_positions
              (get_positions (subj_start d) (subj_end d) (Py.len tokens)))
    as [sp out1].
  destruct (relativate_word_positions
              (get_positions (obj_start d) (obj_end d) (Py.len tokens)))
    as [op out2].
  simpl in H1, H2. by subst.
Qed.

Lemma relativate_word_positions_keeps_length l :
  length (relativate_word_positions l).1 = length l.
Proof.
  rewrite relativate_word_positions_fst, negate_until_zero_length.
  apply length_fmap.
Qed.

Lemma get_positions_length s e n :
  0 ≤ s ≤ e ∧ e < Z.of_nat n → length (get_positions s e (Z.of_nat n)) = n.
Proof.
  intros H. pose proof (get_positions_len s e (Z.of_nat n) H) as Hl.
  unfold Py.len in Hl. lia.
Qed.

Lemma anonymized_tokens_len o d tokens :
  spans_valid d (Py.len tokens) →
  Py.len (anonymized_tokens o d tokens) = Py.len tokens.
Proof.
  intros Hv. destruct tokens as [|tok tokens'] eqn:Ht.
  - destruct Hv as [[? ?] _]. unfold Py.len in *. simpl in *. lia.
  - rewrite <- Ht in *.
    assert (tokens !! 0%nat = Some tok) as H0 by by rewrite Ht.
    by destruct (anonymized_tokens_lookup o d tokens 0 tok Hv H0).
Qed.

(** X6: for a record whose two spans lie within its tokens,
    preprocess builds a tuple in which the token ids, both lists of
    relative positions and the word positions all have the length of the
    record's token list, the tag ids have the lengths of their tag lists,
    and word position i is i+1 unless the token id is 0; the only way it
    fails is KeyError, for a relation that is not a key of LABEL_TO_ID. *)
Theorem preprocess_record_aligned (vocab_word2id : gmap string Z) (o : Opt)
    (d : Datum) (σ : store) :
  spans_valid d (Py.len (σ !!! token d)) →
  match (preprocess_record vocab_word2id o d σ).2 with
  | Ok e =>
      LABEL_TO_ID !! relation d = Some (ex_relation e) ∧
      length (ex_tokens e) = length (σ !!! token d) ∧
      aligned e ∧
      length (ex_pos e) = length (stanford_pos d) ∧
      length (ex_ner e) = length (stanford_ner d) ∧
      length (ex_deprel e) = length (stanford_deprel d) ∧
      ∀ (i : nat) (id : Z), ex_tokens e !! i = Some id →
        ex_inst_position e !! i
        = Some (if bool_decide (id ≠ 0) then Z.of_nat i + 1 else 0)
  | Raise err => err = KeyError ∧ LABEL_TO_ID !! relation d = None
  end.
Proof.
  intros Hv. rewrite preprocess_record_eq. cbn [snd].
  destruct (LABEL_TO_ID !! relation d) as [rel|]; [|done].
  cbn [or_raise mbind result_bind ex_relation ex_tokens ex_pos ex_ner
       ex_deprel ex_inst_position].
  assert (Py.len (anonymized_tokens o d (σ !!! token d))
          = Py.len (σ !!! token d)) as Hlen.
  { by apply anonymized_tokens_len. }
  assert (length (map_to_ids (anonymized_tokens o d (σ !!! token d))
                    vocab_word2id) = length (σ !!! token d)) as Hids.
  { unfold map_to_ids. rewrite length_fmap. unfold Py.len in Hlen. lia. }
  split; [done|]. split; [done|]. split.
  { unfold aligned.
    cbn [ex_subj_positions ex_obj_positions ex_inst_position ex_tokens].
    unfold Py.len.
    rewrite !relativate_word_positions_keeps_length, Hids.
    destruct Hv as [Hs Ho]. unfold Py.len in Hs, Ho.
    rewrite !get_positions_length by done.
    unfold inst_position_of. by rewrite length_imap. }
  unfold map_to_ids. rewrite !length_fmap.
  repeat (split; [done|]).
  intros i id Hid. unfold inst_position_of.
  rewrite list_lookup_imap, Hid. done.
Qed.


(** ** preprocess: outcome, output and failure *)



Lemma anonymize_all_app o data1 data2 σ :
  anonymize_all o (data1 ++ data2) σ
  = anonymize_all o data2 (anonymize_all o data1 σ).
Proof. unfold anonymize_all. apply foldl_app. Qed.




(** ** The relative positions as rows of the position embedding *)

Lemma negate_until_zero_elem l y :
  y ∈ negate_until_zero l → ∃ x, x ∈ l ∧ (y = x ∨ y = - x).
Proof.
  induction l as [|x l IH]; simpl; [by intros H; inv H|].
  destruct (x =? 0).
  - intros Hy. eauto.
  - intros Hy. apply elem_of_cons in Hy as [->|Hy].
    + exists x. split; [by left|by right].
    + destruct (IH Hy) as (x' & Hx' & Hor). exists x'. split; [by right|done].
Qed.

Lemma relativate_get_positions_bound s e n y :
  0 ≤ s ≤ e ∧ e < n →
  y ∈ (relativate_word_positions (get_positions s e n)).1 →
  - ceil_log2 n ≤ y ≤ ceil_log2 n.
Proof.
  intros Hv Hy. rewrite relativate_word_positions_fst in Hy.
  apply negate_until_zero_elem in Hy as (c & Hc & Hor).
  apply list_elem_of_fmap in Hc as (x & -> & Hx).
  assert (- s ≤ x ≤ n - e - 1) as Hb.
  { unfold get_positions, Py.range, Py.repeat in Hx.
    rewrite !elem_of_app, !elem_of_seqZ, elem_of_replicate in Hx. lia. }
  pose proof (ceil_log2_nonneg (Z.abs x + 1)) as H0.
  assert (ceil_log2 (Z.abs x + 1) ≤ ceil_log2 n) as Hmono.
  { apply Z.log2_up_le_mono. lia. }
  lia.
Qed.

(** X9: for a record whose spans lie within its n tokens, n below 2^29,
    every relative position preprocess stores is between -ceil(log2 n)
    and ceil(log2 n); so when ceil(log2 n) <= MAX_LEN, position + MAX_LEN
    is a row of the position embedding, which has MAX_LEN * 2 + 1 rows. *)
Theorem relative_positions_in_pe_emb (vocab_word2id : gmap string Z)
    (o : Opt) (d : Datum) (σ : store) (e : Example) :
  spans_valid d (Py.len (σ !!! token d)) →
  Py.len (σ !!! token d) < 2 ^ 29 →
  (preprocess_record vocab_word2id o d σ).2 = Ok e →
  let n := Py.len (σ !!! token d) in
  Forall (λ p, - ceil_log2 n ≤ p ≤ ceil_log2 n)
    (ex_subj_positions e ++ ex_obj_positions e) ∧
  (ceil_log2 n ≤ MAX_LEN →
   Forall (λ p, 0 ≤ pe_index p < pe_rows)
     (ex_subj_positions e ++ ex_obj_positions e)).
Proof.
  intros Hv _ He n. rewrite preprocess_record_eq in He. cbn [snd] in He.
  destruct (LABEL_TO_ID !! relation d) as [rel|]; [|done].
  cbn [or_raise mbind result_bind] in He. injection He as <-.
  cbn [ex_subj_positions ex_obj_positions].
  assert (Py.len (map_to_ids (anonymized_tokens o d (σ !!! token d))
                    vocab_word2id) = n) as ->.
  { unfold map_to_ids. rewrite len_fmap. by apply anonymized_tokens_len. }
  assert (Forall (λ p, - ceil_log2 n ≤ p ≤ ceil_log2 n)
            ((relativate_word_positions
                (get_positions (subj_start d) (subj_end d) n)).1
             ++ (relativate_word_positions
                   (get_positions (obj_start d) (obj_end d) n)).1)) as Hall.
  { destruct Hv as [Hs Ho]. apply Forall_app.
    split; apply Forall_forall; intros y Hy.
    - exact (relativate_get_positions_bound _ _ _ _ Hs Hy).
    - exact (relativate_get_positions_bound _ _ _ _ Ho Hy). }
  split; [done|]. intros Hmax.
  eapply Forall_impl; [exact Hall|]. intros p Hp. cbv beta in *.
  unfold pe_index, pe_rows. lia.
Qed.

(** ** __init__ with a batch size that is not positive *)

(** X10: once preprocess has succeeded, a batch_size of 0 makes
    __init__ raise ValueError, and a negative batch_size makes it build,
    without any error, a loader that holds no batch at all: its length is
    0 while num_examples is the number of examples. *)
Theorem init_batch_size_not_positive (filename : string)
    (json_data : list Datum) (bs : Z) (o : Opt) (w2id : gmap string Z)
    (evaluation : bool) (σ σ1 : store) (printed : list string)
    (processed : list Example) :
  preprocess json_data w2id o σ = (σ1, printed, Ok processed) →
  (bs = 0 →
     init filename json_data bs o w2id evaluation σ
     = (σ1, printed, Raise ValueError)) ∧
  (bs < 0 →
     init filename json_data bs o w2id evaluation σ
     = (σ1, printed ++ [batches_created 0 filename],
        Ok (mkDataLoader bs o evaluation (Py.len processed) []))).
Proof.
  intros Hpre.
  assert (∃ examples : list Example,
            (if evaluation then Ok processed
             else select processed (shuffle (Py.range 0 (Py.len processed))))
            = Ok examples ∧ Py.len examples = Py.len processed)
    as (examples & Hsel & Hlen).
  { destruct evaluation; [eauto|].
    destruct (select_shuffle processed) as (examples & Hsel & Hperm).
    exists examples. split; [done|]. unfold Py.len. by rewrite Hperm. }
  split; intros Hbs; unfold init; rewrite Hpre; cbn [mbind result_bind];
    rewrite Hsel; cbn [mbind result_bind]; unfold chunk, Py.range_step.
  - subst bs. done.
  - destruct (Z.eqb_spec bs 0); [lia|]. destruct (Z.ltb_spec 0 bs); [lia|].
    replace (Z.to_nat (0 - Py.len examples)) with 0%nat
      by (unfold Py.len; lia).
    cbn. by rewrite Hlen.
Qed.


(** ** __iter__ *)

Lemma init_inv filename json_data bs o w2id evaluation σ σ1 printed self :
  init filename json_data bs o w2id evaluation σ = (σ1, printed, Ok self) →
  ∃ examples : list Example,
    chunk examples (batch_size self) = Ok (data self) ∧
    num_examples self = Py.len examples ∧ eval self = evaluation.
Proof.
  unfold init.
  destruct (preprocess json_data w2id o σ) as [[σ' printed'] [processed|e]];
    [|intros [= _ _ ?]; done].
  cbn [mbind result_bind].
  destruct (if evaluation then Ok processed else _) as [examples|e];
    [|intros [= _ _ ?]; done].
  cbn [mbind result_bind].
  destruct (chunk examples bs) as [batches|e] eqn:Hc;
    [|intros [= _ _ ?]; done].
  cbn [mbind result_bind]. intros [= _ _ <-]. by exists examples.
Qed.

Lemma chunk_concat {A} (examples : list A) bs batches :
  0 < bs → chunk examples bs = Ok batches → concat batches = examples.
Proof.
  intros Hbs. unfold chunk, Py.range_step.
  destruct (Z.eqb_spec bs 0); [lia|]. destruct (Z.ltb_spec 0 bs); [|lia].
  intros [= <-].
  exact (concat_chunks examples bs (Z.to_nat (Py.len examples - 0)) 0 Hbs
           ltac:(lia) ltac:(lia)).
Qed.

Lemma batch_of_rows batch words :
  let b := batch_of (sorted row_lt true (rows_of batch)) words in
  Py.len (b_rels b) = Py.len batch ∧
  b_orig_idx b ≡ₚ Py.range 0 (Py.len batch).
Proof.
  assert (sorted row_lt true (rows_of batch) ≡ₚ rows_of batch) as Hp
    by apply sorted_perm.
  unfold batch_of. cbn [b_rels b_orig_idx columns f_relation]. split.
  - rewrite !len_fmap. unfold Py.len. rewrite Hp. unfold rows_of.
    by rewrite length_imap.
  - by rewrite Hp, rows_of_idx.
Qed.

Lemma iter_keys_ok self :
  Forall (λ batch, batch ≠ []) (data self) →
  Forall (batch_fits (eval self)) (data self) →
  ∀ (m i : nat) (g : rng),
    (i + m)%nat = length (data self) →
    ∃ g' batches,
      iter_keys self (seqZ (Z.of_nat i) (Z.of_nat m)) g
      = (g', batches, None) ∧
      Forall2 (λ b batch, Py.len (b_rels b) = Py.len batch ∧
                          b_orig_idx b ≡ₚ Py.range 0 (Py.len batch))
        batches (drop i (data self)) ∧
      (eval self = true → g' = g).
Proof.
  intros Hne Hfits. induction m as [|m IH]; intros i g Him.
  - exists g, []. rewrite seqZ_nil by lia. rewrite drop_ge by lia.
    repeat split; constructor.
  - destruct (lookup_lt_is_Some_2 (data self) i ltac:(lia)) as [batch Hb].
    assert (batch ≠ []) as Hbne.
    { rewrite Forall_forall in Hne. apply Hne.
      by eapply list_elem_of_lookup_2. }
    assert (batch_fits (eval self) batch) as Hbfits.
    { rewrite Forall_forall in Hfits. apply Hfits.
      by eapply list_elem_of_lookup_2. }
    rewrite seqZ_cons by lia. cbn [iter_keys].
    rewrite (getitem_ok self (KInt (Z.of_nat i)) (Z.of_nat i) batch g
               eq_refl ltac:(lia)); [|by rewrite Nat2Z.id|done|done].
    cbv zeta.
    set (rs := sorted row_lt true (rows_of batch)).
    set (words := if eval self then _ else _).
    destruct words as [ws g1] eqn:Hw. cbn [fst snd].
    replace (Z.succ (Z.of_nat i)) with (Z.of_nat (S i)) by lia.
    replace (Z.pred (Z.of_nat (S m))) with (Z.of_nat m) by lia.
    destruct (IH (S i) g1 ltac:(lia)) as (g' & bs & Hiter & Hall & Hg).
    rewrite Hiter. exists g', (batch_of rs ws :: bs).
    split; [done|]. split.
    + rewrite (drop_S _ _ _ Hb). constructor; [|done].
      apply batch_of_rows.
    + intros He. rewrite Hg by done. unfold words in Hw.
      rewrite He in Hw. by injection Hw.
Qed.

(** X11: iterating over a loader built by __init__, whose numbers (with
    the padding id, and the unknown-word id where word dropout is on) are
    64-bit integers, yields exactly
    len(loader) batches and raises nothing; batch k has one label and one
    original index for each example of the k-th chunk, the indices being a
    rearrangement of 0..size-1; in evaluation mode the random generator is
    left untouched; and for a positive batch_size the batches hold
    num_examples rows in all. *)
Theorem iter_yields_all (filename : string) (json_data : list Datum)
    (bs : Z) (o : Opt) (w2id : gmap string Z) (evaluation : bool)
    (σ σ1 : store) (printed : list string) (self : DataLoader) (g : rng) :
  init filename json_data bs o w2id evaluation σ = (σ1, printed, Ok self) →
  Forall (batch_fits (eval self)) (data self) →
  ∃ (g' : rng) (batches : list Batch),
    iter_ self g = (g', batches, None) ∧
    Py.len batches = len_ self ∧
    Forall2 (λ b batch, Py.len (b_rels b) = Py.len batch ∧
                        b_orig_idx b ≡ₚ Py.range 0 (Py.len batch))
      batches (data self) ∧
    (evaluation = true → g' = g) ∧
    (0 < batch_size self →
     Z.of_nat (sum_list_with (λ b, length (b_rels b)) batches)
     = num_examples self).
Proof.
  intros Hinit Hfits.
  pose proof (init_data_nonempty _ _ _ _ _ _ _ _ _ _ Hinit) as Hne.
  destruct (init_inv _ _ _ _ _ _ _ _ _ _ Hinit)
    as (examples & Hchunk & Hnum & Heval).
  destruct (iter_keys_ok self Hne Hfits (length (data self)) 0 g eq_refl)
    as (g' & batches & Hiter & Hall & Hg).
  rewrite drop_0 in Hall.
  exists g', batches. split.
  { unfold iter_, Py.range, len_, Py.len. by rewrite Z.sub_0_r. }
  split.
  { unfold len_, Py.len. by rewrite (Forall2_length _ _ _ Hall). }
  split; [done|]. split; [by rewrite <- Heval|].
  intros Hbs. rewrite Hnum, <- (chunk_concat _ _ _ Hbs Hchunk).
  unfold Py.len. f_equal. clear -Hall.
  induction Hall as [|b batch bs' data' [Hlen _] _ IH]; [done|].
  simpl. rewrite length_app, IH. unfold Py.len in Hlen. lia.
Qed.


(** ** gold: the label names *)







(** ** The shape of a batch and its mask *)

Lemma word_dropout_all_rows sents dropout g :
  Forall2 (λ w s, length w = length s ∧
                  Forall (λ x, x ∈ s ∨ x = UNK_ID) w)
    (word_dropout_all sents dropout g).1 sents.
Proof.
  revert g. induction sents as [|s sents IH]; intros g; simpl.
  - constructor.
  - pose proof (word_dropout_length s dropout g) as Hlen.
    assert (Forall (λ x, x ∈ s ∨ x = UNK_ID) (word_dropout s dropout g).1)
      as Hin.
    { apply Forall_forall. intros y Hy.
      apply list_elem_of_lookup in Hy as [i Hi].
      destruct (lookup_lt_is_Some_2 s i) as [x Hx].
      { rewrite <- Hlen. by eapply lookup_lt_Some. }
      destruct (word_dropout_lookup s dropout g i x Hx)
        as (y' & Hy' & [->| ->] & _); rewrite Hi in Hy'; injection Hy' as ->.
      - left. by eapply list_elem_of_lookup_2.
      - by right. }
    destruct (word_dropout s dropout g) as [w g1]. specialize (IH g1).
    destruct (word_dropout_all sents dropout g1) as [ws g2].
    cbn [fst] in *. by constructor.
Qed.

Lemma pad_rows_eq (l : list (list Z)) :
  l ≠ [] →
  ∃ L, py_max (Py.len <$> l) = Ok L ∧ pad_rows l = pad_to L <$> l ∧
    Forall (λ s, Py.len s ≤ L) l ∧ (∃ s, s ∈ l ∧ Py.len s = L).
Proof.
  intros Hne.
  destruct (py_max_spec (Py.len <$> l)) as (L & HL & Hle & Hin).
  { by destruct l. }
  exists L. unfold pad_rows. rewrite HL. split; [done|]. split; [done|].
  rewrite Forall_fmap in Hle. split; [exact Hle|].
  apply list_elem_of_fmap in Hin as (s & Hs1 & Hs2). exists s. by split.
Qed.

Lemma pad_rows_shape (l : list (list Z)) L :
  py_max (Py.len <$> l) = Ok L → has_shape (Py.len l) L (pad_rows l).
Proof.
  intros HL. assert (l ≠ []) as Hne by (by intros ->).
  destruct (pad_rows_eq l Hne) as (L' & HL' & -> & Hle & _).
  rewrite HL in HL'. injection HL' as <-. split; [apply len_fmap|].
  apply Forall_fmap. eapply Forall_impl; [exact Hle|]. intros s Hs.
  by apply pad_to_len.
Qed.

Lemma tensor_eq_shape rows cols (t : list (list Z)) v :
  has_shape rows cols t → has_shape rows cols (tensor_eq t v).
Proof.
  intros [Hr Hc]. unfold tensor_eq. split; [by rewrite len_fmap|].
  apply Forall_fmap. eapply Forall_impl; [exact Hc|]. intros row Hrow.
  simpl. by rewrite len_fmap.
Qed.

Lemma py_max_same_lengths (l1 l2 : list (list Z)) :
  Py.len <$> l1 = Py.len <$> l2 →
  py_max (Py.len <$> l1) = py_max (Py.len <$> l2) ∧ Py.len l1 = Py.len l2.
Proof.
  intros Heq. split; [by rewrite Heq|].
  apply (f_equal length) in Heq. rewrite !length_fmap in Heq.
  unfold Py.len. lia.
Qed.

(** X13: for a valid key, when in every example of the batch the two
    position lists and the word positions have the length of the tokens,
    and every number that goes into a tensor is a 64-bit integer, the
    tensors words, masks, subj_positions, obj_positions and src_pos of
    the batch all have the same shape: one row per example and as many
    columns as the longest token sequence; pos, ner and deprel have one
    row per example too, and rels and orig_idx one entry per example. *)
Theorem getitem_shapes (self : DataLoader) (key : Key) (k : Z)
    (batch : list Example) (g : rng) :
  key_int key = Some k → 0 ≤ k →
  data self !! Z.to_nat k = Some batch → batch ≠ [] →
  Forall aligned batch →
  batch_fits (eval self) batch →
  ∃ (b : Batch) (g' : rng) (L : Z),
    getitem self key g = (g', Ok b) ∧
    Forall (λ e, Py.len (ex_tokens e) ≤ L) batch ∧
    (∃ e, e ∈ batch ∧ Py.len (ex_tokens e) = L) ∧
    has_shape (Py.len batch) L (b_words b) ∧
    has_shape (Py.len batch) L (b_masks b) ∧
    has_shape (Py.len batch) L (b_subj_positions b) ∧
    has_shape (Py.len batch) L (b_obj_positions b) ∧
    has_shape (Py.len batch) L (b_src_pos b) ∧
    Py.len (b_pos b) = Py.len batch ∧ Py.len (b_ner b) = Py.len batch ∧
    Py.len (b_deprel b) = Py.len batch ∧
    Py.len (b_rels b) = Py.len batch ∧
    Py.len (b_orig_idx b) = Py.len batch.
Proof.
  intros Hkey Hk Hb Hne Hal Hfits.
  rewrite (getitem_ok self key k batch g Hkey Hk Hb Hne Hfits). cbv zeta.
  set (rs := sorted row_lt true (rows_of batch)).
  set (sorted_ex := row_fields <$> rs).
  assert (sorted_ex ≡ₚ batch) as Hp.
  { unfold sorted_ex, rs. by rewrite sorted_perm, rows_of_fields. }
  set (tokens := ex_tokens <$> sorted_ex).
  set (words := if eval self then _ else _).
  assert (Py.len <$> words.1 = Py.len <$> tokens) as Hw.
  { unfold words. destruct (eval self); [done|].
    pose proof (word_dropout_all_rows tokens (opt_word_dropout (opt self)) g)
      as Hrows.
    induction Hrows as [|w s ws ss [Hl _] _ IH]; [done|].
    rewrite !fmap_cons, IH. unfold Py.len. by rewrite Hl. }
  assert (Py.len sorted_ex = Py.len batch) as Hlen.
  { unfold Py.len. by rewrite Hp. }
  assert (tokens ≠ []) as Htne.
  { unfold tokens. intros Hnil. apply (f_equal length) in Hnil.
    rewrite length_fmap in Hnil. unfold Py.len in Hlen.
    destruct batch; [done|]. simpl in *. lia. }
  destruct (pad_rows_eq tokens Htne) as (L & HL & _ & Hle & (s & Hs & HsL)).
  assert (Forall aligned sorted_ex) as Hal' by by rewrite Hp.
  assert (∀ f : Example → list Z,
            (∀ e, aligned e → length (f e) = length (ex_tokens e)) →
            has_shape (Py.len batch) L (pad_rows (f <$> sorted_ex))) as Hcol.
  { intros f Hf.
    assert (Py.len <$> (f <$> sorted_ex) = Py.len <$> tokens) as Hsame.
    { unfold tokens. rewrite <- !list_fmap_compose.
      apply Forall_fmap_ext. eapply Forall_impl; [exact Hal'|].
      intros e He. simpl. unfold Py.len. by rewrite (Hf e He). }
    destruct (py_max_same_lengths _ _ Hsame) as [Hmax Hrows].
    rewrite HL in Hmax. pose proof (pad_rows_shape _ _ Hmax) as Hshape.
    rewrite Hrows in Hshape. unfold tokens in Hshape.
    by rewrite len_fmap, Hlen in Hshape. }
  assert (has_shape (Py.len batch) L (pad_rows words.1)) as Hwords.
  { destruct (py_max_same_lengths _ _ Hw) as [Hmax Hrows].
    rewrite HL in Hmax. pose proof (pad_rows_shape _ _ Hmax) as Hshape.
    rewrite Hrows in Hshape. unfold tokens in Hshape.
    by rewrite len_fmap, Hlen in Hshape. }
  assert (∀ (f : Example → list Z),
            Py.len (pad_rows (f <$> sorted_ex)) = Py.len batch) as Hrowsn.
  { intros f.
    assert (f <$> sorted_ex ≠ []) as Hfne.
    { intros Hnil. apply (f_equal length) in Hnil.
      rewrite length_fmap in Hnil. unfold Py.len in Hlen.
      destruct batch; [done|]. simpl in *. lia. }
    destruct (pad_rows_eq _ Hfne) as (L' & _ & -> & _).
    by rewrite !len_fmap. }
  exists (batch_of rs words.1), words.2, L.
  split; [done|]. split.
  { rewrite <- Hp. unfold tokens in Hle. by rewrite Forall_fmap in Hle. }
  split.
  { unfold tokens in Hs. apply list_elem_of_fmap in Hs as (e & -> & He).
    exists e. split; [by rewrite <- Hp|done]. }
  unfold batch_of. fold sorted_ex.
  cbn [b_words b_masks b_subj_positions b_obj_positions b_src_pos b_pos
       b_ner b_deprel b_rels b_orig_idx columns f_pos f_ner f_deprel
       f_subj_positions f_obj_positions f_inst_position f_relation].
  split; [done|]. split; [by apply tensor_eq_shape|].
  split; [apply Hcol; by intros e (? & ? & ?)|].
  split; [apply Hcol; by intros e (? & ? & ?)|].
  split; [apply Hcol; by intros e (? & ? & ?)|].
  rewrite !Hrowsn, !len_fmap. fold sorted_ex. rewrite Hlen.
  repeat split; try done.
  unfold Py.len, rs. rewrite sorted_perm. unfold rows_of.
  by rewrite length_imap.
Qed.


(** ** The sequence lengths the model reads from the mask *)

Lemma mask_row_count (w : list Z) (pad : nat) :
  PAD_ID = 0 → Forall (λ x, x ≠ 0) w →
  filter (λ m : bool, (if m then 1 else 0) = PAD_ID)
    ((λ x, bool_decide (x = 0)) <$> (w ++ replicate pad PAD_ID))
  = replicate (length w) false ∧
  (λ x, bool_decide (x = 0)) <$> (w ++ replicate pad PAD_ID)
  = replicate (length w) false ++ replicate pad true.
Proof.
  intros Hpad Hw. rewrite Hpad. induction Hw as [|x w Hx _ [IH1 IH2]].
  - simpl. induction pad as [|pad [IH1 IH2]]; [done|]. simpl.
    rewrite filter_cons. rewrite decide_False by done.
    split; [done|]. by f_equal.
  - rewrite <- app_comm_cons, fmap_cons, filter_cons.
    rewrite bool_decide_eq_false_2 by done.
    rewrite decide_True by done. simpl. split; by f_equal.
Qed.

(** X14: for a batch of two or more examples whose numbers, with UNK_ID
    where word dropout is on, are 64-bit integers, when PAD_ID is 0,
    UNK_ID is not 0 and no token id of the batch is 0, the mask of the batch is
    set exactly on the padding, and the number of cells of row j that the
    model counts as sequence length is the number of tokens of the j-th
    example in sorted order; these lengths come longest first. *)
Theorem masks_give_lengths (self : DataLoader) (key : Key) (k : Z)
    (batch : list Example) (g : rng) :
  PAD_ID = 0 → UNK_ID ≠ 0 →
  key_int key = Some k → 0 ≤ k →
  data self !! Z.to_nat k = Some batch → 1 < Py.len batch →
  Forall (λ e, Forall (λ id, id ≠ 0) (ex_tokens e)) batch →
  batch_fits (eval self) batch →
  ∃ (b : Batch) (g' : rng) (sorted_batch : Fields) (orig_idx : list Z),
    getitem self key g = (g', Ok b) ∧
    sort_all (columns batch) (Py.len <$> f_tokens (columns batch))
    = Ok (sorted_batch, orig_idx) ∧
    seq_lens (b_masks b) = Py.len <$> f_tokens sorted_batch ∧
    StronglySorted (λ a b : Z, b ≤ a) (seq_lens (b_masks b)) ∧
    ∀ (j : nat) (row : list bool) (s : list Z),
      b_masks b !! j = Some row → f_tokens sorted_batch !! j = Some s →
      row = replicate (length s) false
              ++ replicate (length row - length s) true.
Proof.
  intros Hpad Hunk Hkey Hk Hb Htwo Hnz Hfits.
  assert (batch ≠ []) as Hne.
  { intros ->. unfold Py.len in Htwo. simpl in Htwo. lia. }
  rewrite (getitem_ok self key k batch g Hkey Hk Hb Hne Hfits). cbv zeta.
  rewrite (sort_all_ok batch Hne). cbv zeta.
  set (rs := sorted row_lt true (rows_of batch)).
  set (tokens := ex_tokens <$> (row_fields <$> rs)).
  set (words := if eval self then _ else _).
  assert (Forall2 (λ w s, length w = length s ∧ Forall (λ x, x ≠ 0) w)
            words.1 tokens) as Hrows.
  { assert (Forall (Forall (λ id, id ≠ 0)) tokens) as Htok.
    { unfold tokens. rewrite <- list_fmap_compose. apply Forall_fmap.
      unfold rs. rewrite sorted_perm.
      rewrite <- (rows_of_fields batch) in Hnz.
      rewrite Forall_fmap in Hnz. exact Hnz. }
    unfold words. destruct (eval self); cbn [fst].
    - clear -Htok. induction Htok; constructor; auto.
    - pose proof (word_dropout_all_rows tokens (opt_word_dropout (opt self))
                    g) as Hd.
      clear -Hd Htok Hunk. induction Hd as [|w s ws ss [Hl Hin] _ IH].
      + constructor.
      + apply Forall_cons in Htok as [Hs Htok]. constructor; [|by apply IH].
        split; [done|]. eapply Forall_impl; [exact Hin|].
        intros x [Hx| ->]; [|done]. rewrite Forall_forall in Hs. by apply Hs. }
  assert (words.1 ≠ []) as Hwne.
  { intros Hnil. pose proof (Forall2_length _ _ _ Hrows) as Hl.
    rewrite Hnil in Hl. unfold tokens in Hl. rewrite !length_fmap in Hl.
    unfold rs in Hl. rewrite (sorted_perm _ _ _) in Hl. unfold rows_of in Hl.
    rewrite length_imap in Hl. by destruct batch. }
  destruct (pad_rows_eq words.1 Hwne) as (L & _ & Hpadrows & Hle & _).
  exists (batch_of rs words.1), words.2,
    (columns (row_fields <$> rs)), (row_idx <$> rs).
  split; [done|]. split; [done|].
  unfold batch_of. cbn [b_masks columns f_tokens]. fold tokens.
  rewrite Hpadrows.
  assert (∀ w, Py.len w ≤ L → Forall (λ x, x ≠ 0) w →
            filter (λ m : bool, (if m then 1 else 0) = PAD_ID)
              ((λ x, bool_decide (x = 0)) <$> pad_to L w)
            = replicate (length w) false ∧
            (λ x, bool_decide (x = 0)) <$> pad_to L w
            = replicate (length w) false
                ++ replicate (Z.to_nat (L - Py.len w)) true) as Hrow.
  { intros w _ Hw. unfold pad_to, Py.repeat.
    by apply mask_row_count. }
  assert (seq_lens (tensor_eq (pad_to L <$> words.1) 0) = Py.len <$> tokens)
    as Hseq.
  { unfold seq_lens, tensor_eq. rewrite <- !list_fmap_compose.
    clear -Hrows Hle Hrow. induction Hrows as [|w s ws ss [Hl Hw] _ IH].
    - done.
    - apply Forall_cons in Hle as [Hwl Hle]. rewrite !fmap_cons.
      rewrite (IH Hle). f_equal. simpl.
      destruct (Hrow w Hwl Hw) as [-> _]. unfold Py.len.
      by rewrite length_replicate, Hl. }
  split; [exact Hseq|]. split.
  { rewrite Hseq. unfold tokens, rs. rewrite sorted_rows_len.
    eapply StronglySorted_fmap; [|apply sorted_rows_sorted].
    intros a b. unfold flip, row_before. lia. }
  intros j row s Hj Hs. unfold tensor_eq in Hj.
  rewrite !list_lookup_fmap in Hj.
  destruct (words.1 !! j) as [w|] eqn:Hwj; [|done].
  simpl in Hj. injection Hj as <-.
  destruct (Forall2_lookup_lr _ _ _ _ _ _ Hrows Hwj Hs) as [Hl Hw].
  rewrite Forall_forall in Hle.
  destruct (Hrow w (Hle w (list_elem_of_lookup_2 _ _ _ Hwj)) Hw) as [_ Heq].
  change (fmap (M := list) (λ x, bool_decide (x = 0)) (pad_to L w))
    with ((λ x, bool_decide (x = 0)) <$> pad_to L w).
  rewrite Heq, length_app, !length_replicate, Hl. do 2 f_equal. lia.
Qed.

End Loader.

(** * The properties on the sample data *)

(** A decidable statement about concrete data, settled by evaluation. *)
Ltac decide_by_evaluation :=
  apply (bool_decide_unpack _); vm_compute; reflexivity.

Lemma get_positions_spec_witness :
  Py.len (get_positions 2 3 8) = 8 ∧
  get_positions 2 3 8 = [-2; -1; 0; 0; 1; 2; 3; 4].
Proof.
  split; [|reflexivity].
  apply (get_positions_spec 2 3 8). lia.
Defined.

Lemma relativate_word_positions_log_witness :
  (relativate_word_positions (get_positions 2 3 8)).1
  = (λ x, Z.sgn x * ceil_log2 (Z.abs x + 1)) <$> get_positions 2 3 8 ∧
  (relativate_word_positions (get_positions 2 3 8)).1
  = [-2; -1; 0; 0; 1; 2; 2; 3].
Proof.
  split; [|reflexivity].
  apply (relativate_word_positions_log 2 3 8); [lia|reflexivity].
Defined.

Lemma relativate_word_positions_length_witness :
  length (relativate_word_positions [-2; -1; 0; 1]).1 = 4%nat ∧
  (relativate_word_positions [-2; -1; 0; 1]).2 = [].
Proof.
  apply (relativate_word_positions_length [-2; -1; 0; 1]).
  do 2 apply list_elem_of_further. apply list_elem_of_here.
Defined.

Lemma get_long_tensor_spec_witness :
  ∃ tokens L,
    get_long_tensor Sample.PAD_ID [[5; 6; 7]; [8]] 2 = Ok tokens ∧
    Py.len tokens = 2 ∧ Forall (λ row, Py.len row = L) tokens.
Proof.
  assert (padded_matrix Sample.PAD_ID [[5; 6; 7]; [8]] 2)
    as (tokens & L & Hok & _ & _ & Hrows & Hcols & _).
  { apply (get_long_tensor_spec Sample.PAD_ID [[5; 6; 7]; [8]] 2).
    - discriminate.
    - repeat constructor; discriminate.
    - reflexivity.
    - decide_by_evaluation.
    - decide_by_evaluation. }
  by exists tokens, L.
Defined.

(** Read for every batch_size, the statement fails: with two sequences
    and a batch_size of 1 the second row does not exist and the assignment
    to it raises IndexError. *)
Lemma padded_matrix_counterexample :
  [[5; 6; 7]; [8]] ≠ [] ∧ Forall (λ s : list Z, s ≠ []) [[5; 6; 7]; [8]] ∧
  get_long_tensor Sample.PAD_ID [[5; 6; 7]; [8]] 1 = Raise IndexError ∧
  ¬ padded_matrix Sample.PAD_ID [[5; 6; 7]; [8]] 1.
Proof.
  split; [discriminate|]. split; [repeat constructor; discriminate|].
  split; [reflexivity|].
  intros (tokens & L & Hok & _). vm_compute in Hok. discriminate Hok.
Qed.

(** So does it for a cell beyond the 64-bit integers, whatever the
    batch_size. *)
Example get_long_tensor_overflow :
  get_long_tensor Sample.PAD_ID [[2 ^ 63]; [1]] 2 = Raise RuntimeError ∧
  ¬ padded_matrix Sample.PAD_ID [[2 ^ 63]; [1]] 2.
Proof.
  split; [reflexivity|].
  intros (tokens & L & Hok & _). vm_compute in Hok. discriminate Hok.
Qed.

Lemma sample_random_range (g : nat) :
  (0 <= (Sample.random g).1)%Q ∧ ((Sample.random g).1 < 1)%Q.
Proof. split; [discriminate|reflexivity]. Qed.

Lemma word_dropout_spec_witness :
  length (word_dropout Sample.UNK_ID nat Sample.random [4; 1; 5] (1 # 4) 0%nat).1
  = 3%nat ∧
  (word_dropout Sample.UNK_ID nat Sample.random [4; 1; 5] 0 0%nat).1
  = [4; 1; 5].
Proof.
  split.
  - apply (word_dropout_spec Sample.PAD_ID Sample.UNK_ID nat Sample.random
             sample_random_range [4; 1; 5] (1 # 4) 0%nat).
  - apply (word_dropout_spec Sample.PAD_ID Sample.UNK_ID nat Sample.random
             sample_random_range [4; 1; 5] 0 0%nat).
    reflexivity.
Defined.

Lemma sort_all_unsort_witness :
  ∃ sorted_batch orig_idx,
    sort_all (columns [Sample.e0; Sample.e1; Sample.e2])
      (Py.len <$> f_tokens (columns [Sample.e0; Sample.e1; Sample.e2]))
    = Ok (sorted_batch, orig_idx) ∧
    unsort Z.ltb orig_idx (ex_relation <$> zip_fields sorted_batch)
    = [1; 0; 0].
Proof.
  destruct (sort_all_unsort Sample.PAD_ID Sample.UNK_ID nat Sample.random
              [Sample.e0; Sample.e1; Sample.e2])
    as (sorted_batch & orig_idx & Hsort & _ & _ & _ & _ & _ & Hun & _).
  - discriminate.
  - exists sorted_batch, orig_idx. split; [exact Hsort|].
    apply (Hun Z Z.ltb ex_relation).
Defined.

Lemma anonymize_spans_witness :
  let out :=
    read_tokens
      (anonymize Sample.str_lower (mkOpt true 0) Sample.d1 Sample.σ0).1
      (anonymize Sample.str_lower (mkOpt true 0) Sample.d1 Sample.σ0).2 in
  Py.len out = 5 ∧
  out !! 1%nat = Some "SUBJ-PERSON" ∧ out !! 2%nat = Some "moved" ∧
  out !! 4%nat = Some "OBJ-CITY".
Proof.
  destruct (anonymize_spans Sample.str_lower (mkOpt true 0) Sample.d1
              Sample.σ0) as [Hlen Hat].
  - unfold spans_valid. vm_compute. repeat split; discriminate.
  - split; [exact Hlen|]. split; [|split].
    + exact (Hat 1%nat "Ray" eq_refl).
    + exact (Hat 2%nat "moved" eq_refl).
    + exact (Hat 4%nat "Rome" eq_refl).
Defined.

(** The reading that gives each span its own token at every one of its
    indices fails where the spans overlap: index 1 of the sample record
    lies in both, and holds the object token. *)
Lemma anonymized_spanwise_counterexample :
  ¬ anonymized_spanwise Sample.str_lower (mkOpt false 0)
      Sample.d_overlap Sample.σ_overlap.
Proof.
  unfold anonymized_spanwise. rewrite anonymize_eq. simpl.
  intros H. destruct H as [_ H].
  - unfold spans_valid. vm_compute. repeat split; discriminate.
  - destruct (H 1%nat "b" eq_refl) as [Hsubj _].
    specialize (Hsubj eq_refl). vm_compute in Hsubj. discriminate.
Qed.

Lemma sample_shuffle_perm (l : list Z) : Sample.shuffle l ≡ₚ l.
Proof. apply reverse_Permutation. Qed.

Lemma init_batches_witness :
  ∃ σ1 printed self,
    init Sample.UNK_ID Sample.POS_TO_ID Sample.NER_TO_ID Sample.DEPREL_TO_ID
      Sample.LABEL_TO_ID Sample.str_lower Sample.shuffle "train.json"
      Sample.json_data 2 (mkOpt true 0) Sample.word2id false Sample.σ0
    = (σ1, printed, Ok self) ∧
    len_ self = 2 ∧ num_examples self = 3.
Proof.
  destruct (preprocess Sample.UNK_ID Sample.POS_TO_ID Sample.NER_TO_ID
              Sample.DEPREL_TO_ID Sample.LABEL_TO_ID Sample.str_lower
              Sample.json_data Sample.word2id (mkOpt true 0) Sample.σ0)
    as [[σ1 printed] r] eqn:Hpre.
  assert (∃ processed, r = Ok processed ∧ Py.len processed = 3)
    as (processed & -> & Hn).
  { vm_compute in Hpre. injection Hpre as _ _ <-. eexists. split; reflexivity. }
  destruct (init_batches Sample.UNK_ID Sample.POS_TO_ID Sample.NER_TO_ID
              Sample.DEPREL_TO_ID Sample.LABEL_TO_ID Sample.str_lower
              Sample.shuffle sample_shuffle_perm "train.json"
              Sample.json_data 2 (mkOpt true 0) Sample.word2id false
              Sample.σ0 σ1 printed processed)
    as (self & examples & Hinit & Hperm & _ & Hlen & _ & Hnum & _).
  - lia.
  - exact Hpre.
  - eexists σ1, _, self. split; [exact Hinit|].
    assert (Py.len examples = 3) as Hex.
    { unfold Py.len in *. by rewrite Hperm. }
    rewrite Hlen, Hnum, Hex. split; reflexivity.
Defined.

Lemma getitem_errors_witness :
  ∃ self,
    (∃ b, (getitem Sample.PAD_ID Sample.UNK_ID nat Sample.random self
             (KInt 0) 0%nat).2 = Ok b) ∧
    (getitem Sample.PAD_ID Sample.UNK_ID nat Sample.random self
       (KInt (-1)) 0%nat).2 = Raise IndexError ∧
    getitem Sample.PAD_ID Sample.UNK_ID nat Sample.random self KOther 0%nat
    = (0%nat, Raise TypeError).
Proof.
  destruct (init Sample.UNK_ID Sample.POS_TO_ID Sample.NER_TO_ID
              Sample.DEPREL_TO_ID Sample.LABEL_TO_ID Sample.str_lower
              Sample.shuffle "dev.json" Sample.json_data 2 (mkOpt true 0)
              Sample.word2id true Sample.σ0)
    as [[σ1 printed] r] eqn:Hinit.
  assert (∃ self,
            r = Ok self ∧
            Forall (batch_fits Sample.PAD_ID Sample.UNK_ID (eval self))
              (data self) ∧
            0 ≤ 0 < len_ self) as (self & -> & Hfits & Hzero).
  { vm_compute in Hinit. injection Hinit as _ _ <-. eexists.
    split; [reflexivity|]. split; [decide_by_evaluation|].
    vm_compute. split; [discriminate|reflexivity]. }
  exists self. split; [|split].
  - apply (getitem_errors Sample.PAD_ID Sample.UNK_ID Sample.POS_TO_ID
             Sample.NER_TO_ID Sample.DEPREL_TO_ID Sample.LABEL_TO_ID
             Sample.str_lower nat Sample.random Sample.shuffle
             _ _ _ _ _ _ _ _ _ self (KInt 0) 0%nat Hinit);
      [exact Hzero|exact Hfits].
  - apply (getitem_errors Sample.PAD_ID Sample.UNK_ID Sample.POS_TO_ID
             Sample.NER_TO_ID Sample.DEPREL_TO_ID Sample.LABEL_TO_ID
             Sample.str_lower nat Sample.random Sample.shuffle
             _ _ _ _ _ _ _ _ _ self (KInt (-1)) 0%nat Hinit).
    lia.
  - apply (getitem_errors Sample.PAD_ID Sample.UNK_ID Sample.POS_TO_ID
             Sample.NER_TO_ID Sample.DEPREL_TO_ID Sample.LABEL_TO_ID
             Sample.str_lower nat Sample.random Sample.shuffle
             _ _ _ _ _ _ _ _ _ self KOther 0%nat Hinit).
Defined.

Lemma preprocess_mutates_input_witness :
  ∃ σ' printed r,
    preprocess Sample.UNK_ID Sample.POS_TO_ID Sample.NER_TO_ID
      Sample.DEPREL_TO_ID Sample.LABEL_TO_ID Sample.str_lower
      Sample.json_data Sample.word2id (mkOpt false 0) Sample.σ0
    = (σ', printed, r) ∧
    σ' !! 0%nat = Some ["SUBJ-PERSON"; "lives"; "in"; "OBJ-CITY"] ∧
    Sample.σ0 !! 0%nat = Some ["Ann"; "lives"; "in"; "Oslo"].
Proof.
  destruct (preprocess Sample.UNK_ID Sample.POS_TO_ID Sample.NER_TO_ID
              Sample.DEPREL_TO_ID Sample.LABEL_TO_ID Sample.str_lower
              Sample.json_data Sample.word2id (mkOpt false 0) Sample.σ0)
    as [[σ' printed] r] eqn:Hpre.
  exists σ', printed, r. split; [done|]. split; [|reflexivity].
  assert (∃ processed, r = Ok processed) as (processed & ->).
  { vm_compute in Hpre. injection Hpre as _ _ <-. by eexists. }
  destruct (preprocess_mutates_input Sample.UNK_ID Sample.POS_TO_ID
              Sample.NER_TO_ID Sample.DEPREL_TO_ID Sample.LABEL_TO_ID
              Sample.str_lower _ _ _ _ _ _ _ Hpre) as [_ Hfalse].
  destruct (Hfalse eq_refl) as [_ Hall].
  destruct (Hall processed eq_refl) as [_ Hdistinct].
  destruct Hdistinct as [Hrec _].
  - apply (bool_decide_unpack _). reflexivity.
  - apply (Hrec Sample.d0). apply list_elem_of_here.
Defined.

(** * The further properties on the sample data *)

Lemma bin_positions_spec_witness :
  bin_positions [-4; -1; 0; 2; 7] 3 = [-2; -1; 0; 1; 3] ∧
  bin_positions [-4; -1; 0; 2; 7] 1 = [-4; -1; 0; 2; 7].
Proof.
  destruct (bin_positions_spec [-4; -1; 0; 2; 7] 3) as (H3 & _);
    [decide_by_evaluation|decide_by_evaluation|].
  destruct (bin_positions_spec [-4; -1; 0; 2; 7] 1) as (_ & _ & _ & _ & H1);
    [decide_by_evaluation|decide_by_evaluation|].
  split; [exact H3|exact H1].
Defined.

Lemma relativate_word_positions_no_zero_witness :
  get_positions 2 0 4 = [-2; -1; 1; 2; 3] ∧
  (relativate_word_positions (get_positions 2 0 4)).1 = [-2; -1; -1; -2; -2].
Proof.
  split; [reflexivity|].
  apply (relativate_word_positions_no_zero (get_positions 2 0 4)).
  - vm_compute. repeat (constructor; [intros H; discriminate H|]).
    constructor.
  - decide_by_evaluation.
Defined.

Lemma word_dropout_extremes_witness :
  (word_dropout Sample.UNK_ID nat Sample.random [4; 1; 5] 1 0%nat).1
  = [1; 1; 1] ∧
  (word_dropout Sample.UNK_ID nat Sample.random [4; 1; 5] (-1) 0%nat).1
  = [4; 1; 5].
Proof.
  split.
  - apply (word_dropout_extremes Sample.UNK_ID nat Sample.random
             sample_random_range [4; 1; 5] 1 0%nat).
    discriminate.
  - apply (word_dropout_extremes Sample.UNK_ID nat Sample.random
             sample_random_range [4; 1; 5] (-1) 0%nat).
    discriminate.
Defined.

Lemma word_dropout_draws_witness :
  (word_dropout Sample.UNK_ID nat Sample.random [4; 1; 5] (1 # 4) 0%nat).2
  = 2%nat.
Proof.
  exact (word_dropout_draws Sample.UNK_ID nat Sample.random [4; 1; 5]
           (1 # 4) 0%nat).
Defined.

Lemma get_long_tensor_outcome_witness :
  get_long_tensor Sample.PAD_ID [[5; 6; 7]; [8]] 1 = Raise IndexError ∧
  get_long_tensor Sample.PAD_ID [[5; 6; 7]; [8]] (-1) = Raise RuntimeError ∧
  get_long_tensor Sample.PAD_ID [[5]; [2 ^ 63]] 1 = Raise RuntimeError ∧
  ∃ token_len,
    get_long_tensor Sample.PAD_ID [[5; 6; 7]; [8]] 3
    = Ok ((pad_to Sample.PAD_ID token_len <$> [[5; 6; 7]; [8]])
            ++ Py.repeat (Py.repeat Sample.PAD_ID token_len) (3 - 2)).
Proof.
  destruct (get_long_tensor_outcome Sample.PAD_ID [[5; 6; 7]; [8]] 1)
    as (_ & H1); destruct H1 as (_ & _ & _ & Hindex & _); [discriminate|].
  destruct (get_long_tensor_outcome Sample.PAD_ID [[5; 6; 7]; [8]] (-1))
    as (_ & H2); destruct H2 as (Hruntime & _); [discriminate|].
  destruct (get_long_tensor_outcome Sample.PAD_ID [[5]; [2 ^ 63]] 1)
    as (_ & H3); destruct H3 as (_ & _ & Hoverflow & _); [discriminate|].
  destruct (get_long_tensor_outcome Sample.PAD_ID [[5; 6; 7]; [8]] 3)
    as (_ & H4); destruct H4 as (_ & _ & _ & _ & Hok); [discriminate|].
  split; [apply Hindex; decide_by_evaluation|].
  split; [apply Hruntime; lia|].
  split; [apply Hoverflow; decide_by_evaluation|].
  destruct Hok as (_ & L & _ & HL); [decide_by_evaluation..|].
  by exists L.
Defined.

Lemma preprocess_record_aligned_witness :
  ∃ e,
    (preprocess_record Sample.UNK_ID Sample.POS_TO_ID Sample.NER_TO_ID
       Sample.DEPREL_TO_ID Sample.LABEL_TO_ID Sample.str_lower
       Sample.word2id (mkOpt false 0) Sample.d1 Sample.σ0).2 = Ok e ∧
    length (ex_tokens e) = 5%nat ∧ aligned e.
Proof.
  pose proof (preprocess_record_aligned Sample.UNK_ID Sample.POS_TO_ID
                Sample.NER_TO_ID Sample.DEPREL_TO_ID Sample.LABEL_TO_ID
                Sample.str_lower Sample.word2id (mkOpt false 0) Sample.d1
                Sample.σ0) as H.
  destruct (preprocess_record _ _ _ _ _ _ _ _ Sample.d1 Sample.σ0).2
    as [e|err].
  - destruct H as (_ & Hlen & Hal & _).
    + unfold spans_valid. vm_compute. repeat split; discriminate.
    + exists e. split; [done|]. split; [exact Hlen|exact Hal].
  - destruct H as [_ Hnone].
    + unfold spans_valid. vm_compute. repeat split; discriminate.
    + vm_compute in Hnone. discriminate.
Defined.



Lemma relative_positions_in_pe_emb_witness :
  Forall (λ p, 0 ≤ pe_index Sample.MAX_LEN p < pe_rows Sample.MAX_LEN)
    (ex_subj_positions Sample.e1 ++ ex_obj_positions Sample.e1).
Proof.
  apply (relative_positions_in_pe_emb Sample.UNK_ID Sample.POS_TO_ID
           Sample.NER_TO_ID Sample.DEPREL_TO_ID Sample.LABEL_TO_ID
           Sample.str_lower Sample.MAX_LEN Sample.word2id (mkOpt false 0)
           Sample.d1 Sample.σ0 Sample.e1).
  - unfold spans_valid. vm_compute. repeat split; discriminate.
  - decide_by_evaluation.
  - reflexivity.
  - vm_compute. discriminate.
Defined.

Lemma init_batch_size_not_positive_witness :
  ∃ σ1 printed,
    init Sample.UNK_ID Sample.POS_TO_ID Sample.NER_TO_ID Sample.DEPREL_TO_ID
      Sample.LABEL_TO_ID Sample.str_lower Sample.shuffle "train.json"
      Sample.json_data 0 (mkOpt true 0) Sample.word2id false Sample.σ0
    = (σ1, printed, Raise ValueError) ∧
    ∃ self,
      init Sample.UNK_ID Sample.POS_TO_ID Sample.NER_TO_ID
        Sample.DEPREL_TO_ID Sample.LABEL_TO_ID Sample.str_lower
        Sample.shuffle "train.json" Sample.json_data (-2) (mkOpt true 0)
        Sample.word2id false Sample.σ0
      = (σ1, printed ++ ["0 batches created for train.json"], Ok self) ∧
      data self = [] ∧ num_examples self = 3.
Proof.
  destruct (preprocess Sample.UNK_ID Sample.POS_TO_ID Sample.NER_TO_ID
              Sample.DEPREL_TO_ID Sample.LABEL_TO_ID Sample.str_lower
              Sample.json_data Sample.word2id (mkOpt true 0) Sample.σ0)
    as [[σ1 printed] r] eqn:Hpre.
  assert (∃ processed, r = Ok processed ∧ Py.len processed = 3)
    as (processed & -> & Hn).
  { vm_compute in Hpre. injection Hpre as _ _ <-. eexists. split; reflexivity. }
  exists σ1, printed. split.
  - apply (init_batch_size_not_positive Sample.UNK_ID Sample.POS_TO_ID
             Sample.NER_TO_ID Sample.DEPREL_TO_ID Sample.LABEL_TO_ID
             Sample.str_lower Sample.shuffle sample_shuffle_perm
             "train.json" Sample.json_data 0 (mkOpt true 0) Sample.word2id
             false Sample.σ0 σ1 printed processed Hpre).
    reflexivity.
  - eexists. split.
    { apply (init_batch_size_not_positive Sample.UNK_ID Sample.POS_TO_ID
               Sample.NER_TO_ID Sample.DEPREL_TO_ID Sample.LABEL_TO_ID
               Sample.str_lower Sample.shuffle sample_shuffle_perm
               "train.json" Sample.json_data (-2) (mkOpt true 0)
               Sample.word2id false Sample.σ0 σ1 printed processed Hpre).
      lia. }
    split; [reflexivity|exact Hn].
Defined.

Lemma iter_yields_all_witness :
  ∃ self g' batches,
    iter_ Sample.PAD_ID Sample.UNK_ID nat Sample.random self 0%nat
    = (g', batches, None) ∧
    Py.len batches = 2.
Proof.
  destruct (init Sample.UNK_ID Sample.POS_TO_ID Sample.NER_TO_ID
              Sample.DEPREL_TO_ID Sample.LABEL_TO_ID Sample.str_lower
              Sample.shuffle "train.json" Sample.json_data 2 (mkOpt true 0)
              Sample.word2id false Sample.σ0)
    as [[σ1 printed] r] eqn:Hinit.
  assert (∃ self,
            r = Ok self ∧ len_ self = 2 ∧
            Forall (batch_fits Sample.PAD_ID Sample.UNK_ID (eval self))
              (data self)) as (self & -> & Hlen & Hfits).
  { vm_compute in Hinit. injection Hinit as _ _ <-. eexists.
    split; [reflexivity|]. split; [reflexivity|decide_by_evaluation]. }
  destruct (iter_yields_all Sample.PAD_ID Sample.UNK_ID Sample.POS_TO_ID
              Sample.NER_TO_ID Sample.DEPREL_TO_ID Sample.LABEL_TO_ID
              Sample.str_lower nat Sample.random Sample.shuffle
              _ _ _ _ _ _ _ _ _ self 0%nat Hinit Hfits)
    as (g' & batches & Hiter & Hn & _).
  exists self, g', batches. split; [exact Hiter|]. by rewrite Hn.
Defined.



Lemma sample_aligned :
  Forall (aligned) [Sample.e0; Sample.e1; Sample.e2].
Proof. repeat constructor. Qed.

Lemma sample_batch_fits (evaluation : bool) :
  batch_fits Sample.PAD_ID Sample.UNK_ID evaluation
    [Sample.e0; Sample.e1; Sample.e2].
Proof. destruct evaluation; decide_by_evaluation. Qed.

Lemma getitem_shapes_witness :
  ∃ b g' L,
    getitem Sample.PAD_ID Sample.UNK_ID nat Sample.random
      (mkDataLoader 3 (mkOpt true 0) true 3
         [[Sample.e0; Sample.e1; Sample.e2]]) (KInt 0) 0%nat
    = (g', Ok b) ∧
    has_shape 3 L (b_words b) ∧ has_shape 3 L (b_subj_positions b).
Proof.
  destruct (getitem_shapes Sample.PAD_ID Sample.UNK_ID nat Sample.random
              (mkDataLoader 3 (mkOpt true 0) true 3
                 [[Sample.e0; Sample.e1; Sample.e2]]) (KInt 0) 0
              [Sample.e0; Sample.e1; Sample.e2] 0%nat)
    as (b & g' & L & Hget & _ & _ & Hwords & _ & Hsubj & _).
  - reflexivity.
  - lia.
  - reflexivity.
  - discriminate.
  - exact sample_aligned.
  - exact (sample_batch_fits true).
  - by exists b, g', L.
Defined.

Lemma masks_give_lengths_witness :
  ∃ b g',
    getitem Sample.PAD_ID Sample.UNK_ID nat Sample.random
      (mkDataLoader 3 (mkOpt false (1 # 2)) false 3
         [[Sample.e0; Sample.e1; Sample.e2]]) (KInt 0) 0%nat
    = (g', Ok b) ∧
    StronglySorted (λ a b : Z, b ≤ a) (seq_lens Sample.PAD_ID (b_masks b)).
Proof.
  destruct (masks_give_lengths Sample.PAD_ID Sample.UNK_ID nat Sample.random
              (mkDataLoader 3 (mkOpt false (1 # 2)) false 3
                 [[Sample.e0; Sample.e1; Sample.e2]]) (KInt 0) 0
              [Sample.e0; Sample.e1; Sample.e2] 0%nat)
    as (b & g' & sorted_batch & orig_idx & Hget & _ & _ & Hsorted & _).
  - reflexivity.
  - discriminate.
  - reflexivity.
  - lia.
  - reflexivity.
  - unfold Py.len. simpl. lia.
  - vm_compute. repeat (constructor; [intros H; discriminate H|]).
    repeat constructor; intros H; discriminate H.
  - exact (sample_batch_fits false).
  - by exists b, g'.
Defined.
